(** * cuGraph C API: graph views, renumbering, COO->CSR, pagerank, BFS, bucket workers

    A shallow embedding of
      - [src/cpp/src/cugraph.cu]                       (module [Cugraph]),
      - the older copy of the same file that opens [src/unnamed/part_005]
        (module [Part005]),
      - the degree-bucket worker kernels further down [src/unnamed/part_005]
        (module [Opg]), and
      - ktruss.cu, a caller of [gdf_add_adj_list] in
        [src/cpp/src/community/louvain_giift.cu] (module [Ktruss]).

    Integers of the source ([int], [int32_t], [int64_t], [size_t],
    [gdf_size_type]) are [Z].  The embedded functions do no arithmetic on
    them beyond [size - 1] and [size + 1], except for the launch
    configuration of [gdf_degree_impl], whose unsigned arithmetic is written
    out.  Where the source hands a value to a narrower type the wrap-around
    is written out with [to_int32]: the [size_t] count of the renumbering
    stored in the [gdf_size_type] size of the numbering map, the dense ids
    written through [int32_t] pointers, and a 64-bit buffer read through a
    pointer to [int].
    [float]/[double] values are rationals ([Q]):
    nothing proved below depends on rounding.  A C function is a state
    transformer over the object it is handed by pointer; it ends by
    [Return]ing a [gdf_error]. *)

From Stdlib Require Import ZArith QArith Qabs Lia Sorted.
From stdpp Require Import base decidable option numbers list.

Local Open Scope Z_scope.

(** ** cudf column descriptors *)

(** The [gdf_dtype] tags the sources name; every other tag of cudf's enum is
    [GDF_DTYPE_OTHER]. *)
Inductive gdf_dtype :=
| GDF_INT8 | GDF_INT32 | GDF_INT64 | GDF_FLOAT32 | GDF_FLOAT64
| GDF_DTYPE_OTHER.

Inductive gdf_error :=
| GDF_SUCCESS
| GDF_CUDA_ERROR
| GDF_UNSUPPORTED_DTYPE
| GDF_COLUMN_SIZE_MISMATCH
| GDF_COLUMN_SIZE_TOO_BIG
| GDF_DATASET_EMPTY
| GDF_VALIDITY_UNSUPPORTED
| GDF_INVALID_API_CALL.

#[global] Instance gdf_dtype_eq_dec : EqDecision gdf_dtype.
Proof. solve_decision. Defined.

#[global] Instance gdf_error_eq_dec : EqDecision gdf_error.
Proof. solve_decision. Defined.

(** A value stored in a 32-bit signed cell ([int], [int32_t],
    [gdf_size_type]): two's complement wrap-around. *)
Definition to_int32 (x : Z) : Z := (x + 2 ^ 31) mod 2 ^ 32 - 2 ^ 31.

(** What a [void *data] points to. *)
Inductive buffer :=
| Null                      (* nullptr *)
| Ints (l : list Z)         (* an int32_t or int64_t array *)
| Reals (l : list Q).       (* a float or double array *)

(** The casts of [col->data] to an integer and to a floating-point array. *)
Definition as_ints (b : buffer) : list Z :=
  match b with Ints l => l | _ => [] end.

Definition as_reals (b : buffer) : list Q :=
  match b with Reals l => l | _ => [] end.

Definition is_nullptr (b : buffer) : bool :=
  match b with Null => true | _ => false end.

Record gdf_column := {
  data : buffer;
  valid : option (list bool);
  size : Z;
  dtype : gdf_dtype;
  null_count : Z
}.

(** cudf's [gdf_column_view]: fills the descriptor, no copy of the buffer. *)
Definition gdf_column_view (d : buffer) (v : option (list bool))
    (sz : Z) (t : gdf_dtype) : gdf_column :=
  {| data := d; valid := v; size := sz; dtype := t; null_count := 0 |}.

(** The cast of [col->data] to a pointer to [int]: the buffer as 32-bit
    cells.  The cells of a column tagged GDF_INT64 are 64 bits wide, so each
    of them is read as two [int]s, the low half first (the byte order of the
    devices the code runs on); a buffer of 32-bit cells is read as it is. *)
Definition int_cells (c : gdf_column) : list Z :=
  match dtype c with
  | GDF_INT64 => as_ints (data c) ≫= (fun v => [to_int32 v; to_int32 (v / 2 ^ 32)])
  | _ => as_ints (data c)
  end.

(** [cpy_column_view(in, out)] for non-null [in] and [out]. *)
Definition cpy_column_view (c : gdf_column) : gdf_column :=
  gdf_column_view (data c) (valid c) (size c) (dtype c).

(** ** Graph object *)

(** Modelled from the spec: [struct gdf_edge_list] (cugraph.h is not under
    src/), with the fields the sources read; section 3, an edge is an
    "ordered pair (source, destination) plus optional weight", and section 9,
    raw arrays "with ad hoc ownership tags". *)
Record gdf_edge_list := {
  src_indices : gdf_column;
  dest_indices : gdf_column;
  edge_data : option gdf_column;
  ownership : Z
}.

(** Modelled from the spec: [struct gdf_adj_list] (cugraph.h is not under
    src/); section 3, the compressed-sparse shard: offsets, indices and an
    "optional parallel weights array". *)
Record gdf_adj_list := {
  offsets : gdf_column;
  indices : gdf_column;
  adj_edge_data : option gdf_column;
  adj_ownership : Z
}.

(** Modelled from the spec: [struct gdf_graph] (cugraph.h is not under src/):
    the three representations a graph object may point to, each possibly
    null. *)
Record gdf_graph := {
  edgeList : option gdf_edge_list;
  adjList : option gdf_adj_list;
  transposedAdjList : option gdf_adj_list
}.

Definition set_edgeList (e : option gdf_edge_list) (g : gdf_graph) : gdf_graph :=
  {| edgeList := e; adjList := adjList g; transposedAdjList := transposedAdjList g |}.

Definition set_adjList (a : option gdf_adj_list) (g : gdf_graph) : gdf_graph :=
  {| edgeList := edgeList g; adjList := a; transposedAdjList := transposedAdjList g |}.

Definition set_transposedAdjList (a : option gdf_adj_list) (g : gdf_graph) : gdf_graph :=
  {| edgeList := edgeList g; adjList := adjList g; transposedAdjList := a |}.

Definition isnull {A} (p : option A) : bool :=
  match p with None => true | Some _ => false end.

(** ** Control flow of a C function body

    [Next a]: the statement finished and yields [a];
    [Return e]: the function executed [return e];
    [Crash]: the call does not return (a null pointer is dereferenced, or a
    traversal does not finish within its bound). *)

Inductive outcome (A : Type) :=
| Next (a : A)
| Return (e : gdf_error)
| Crash.
Arguments Next {A} a.
Arguments Return {A} e.
Arguments Crash {A}.

Definition M (S A : Type) : Type := S -> outcome A * S.

Definition ret {S A} (a : A) : M S A := fun s => (Next a, s).

Definition bind {S A B} (m : M S A) (k : A -> M S B) : M S B :=
  fun s =>
    match m s with
    | (Next a, s') => k a s'
    | (Return e, s') => (Return e, s')
    | (Crash, s') => (Crash, s')
    end.

Definition get {S} : M S S := fun s => (Next s, s).
Definition put {S} (s : S) : M S unit := fun _ => (Next tt, s).
Definition modify {S} (f : S -> S) : M S unit := fun s => (Next tt, f s).
Definition return_ {S A} (e : gdf_error) : M S A := fun s => (Return e, s).
Definition crash {S A} : M S A := fun s => (Crash, s).

(** [gdf_error err = f(...)]: the callee's [return] becomes a value. *)
Definition call {S} (f : M S unit) : M S gdf_error :=
  fun s =>
    match f s with
    | (Return e, s') => (Next e, s')
    | (Next _, s') => (Next GDF_SUCCESS, s')
    | (Crash, s') => (Crash, s')
    end.

(** [p->field] on a pointer that may be null. *)
Definition deref {S A} (p : option A) : M S A :=
  match p with Some a => ret a | None => crash end.

Declare Scope c_scope.
Delimit Scope c_scope with C.
Notation "x <- m ;; k" := (bind m (fun x => k))
  (at level 100, m at next level, right associativity) : c_scope.
Notation "m ;; k" := (bind m (fun _ => k))
  (at level 100, right associativity) : c_scope.
Local Open Scope c_scope.

(** Modelled from the spec: the [GDF_REQUIRE(cond, err)] macro
    (utilities/error_utils.h is not under src/).  Section 7: validation
    errors are "returned synchronously to the caller": when [cond] fails the
    enclosing function returns [err]. *)
Definition GDF_REQUIRE {S} (cond : bool) (err : gdf_error) : M S unit :=
  if cond then ret tt else return_ err.

(** ** Helpers of the repository that are not under src/ *)

(** *** renumber.cuh *)

(** Modelled from the spec: part of [cugraph::renumber_vertices] (renumber.cuh
    is not under src/): one identifier joins the increasing list of distinct
    identifiers. *)
Fixpoint insert_unique (x : Z) (l : list Z) : list Z :=
  match l with
  | [] => [x]
  | y :: l' =>
      if bool_decide (x < y) then x :: y :: l'
      else if bool_decide (x = y) then y :: l'
      else y :: insert_unique x l'
  end.

(** Modelled from the spec: part of [cugraph::renumber_vertices]: the
    distinct values of [l] in increasing order ("deduplicate", "sorted order
    of original ids"). *)
Definition sort_unique (l : list Z) : list Z := foldr insert_unique [] l.

(** Modelled from the spec: part of [cugraph::renumber_vertices]: the dense
    id of [x], its position in the numbering map [l]. *)
Fixpoint index_of (x : Z) (l : list Z) : Z :=
  match l with
  | [] => 0
  | y :: l' => if bool_decide (x = y) then 0 else 1 + index_of x l'
  end.

(** What a call of [cugraph::renumber_vertices] hands back. *)
Record renumbering := {
  ren_err : gdf_error;
  ren_src : list Z;          (* written through the int32_t pointer src_renumbered *)
  ren_dst : list Z;          (* written through the int32_t pointer dst_renumbered *)
  new_size : Z;              (* size_t *)
  ren_map : list Z           (* the array handed back through the last argument *)
}.

(** Modelled from the spec: [cugraph::renumber_vertices] (renumber.cuh is not
    under src/).  Section 4.1: "collect the set of distinct identifiers
    appearing in either array (deduplicate), assign dense ids by a stable,
    reproducible order (sorted order of original ids ...), emit mapping";
    the numbering map records "for each dense id, its original identifier".
    Both callers pass [int32_t] pointers for the dense ids ("the renumbered
    space is deliberately forced to 32 bits"), so a dense id is stored in a
    32-bit cell; the count handed back is a [size_t] and is exact.  The
    helper reports GDF_SUCCESS whatever that count is: the callers test the
    count themselves after a successful return (the 64-bit branch of
    [gdf_renumber_vertices]), and the failures left to the helper are those
    of its device allocations, which are taken to succeed as for ALLOC_TRY.
    What is proved below about a dense range beyond 2^31 - 1 is proved for
    every result with [ren_err = GDF_SUCCESS], with this definition opaque. *)
Definition renumber_vertices (size : Z) (src dst : list Z) : renumbering :=
  let s := take (Z.to_nat size) src in
  let d := take (Z.to_nat size) dst in
  let numbering := sort_unique (s ++ d) in
  {| ren_err := GDF_SUCCESS;
     ren_src := (fun x => to_int32 (index_of x numbering)) <$> s;
     ren_dst := (fun x => to_int32 (index_of x numbering)) <$> d;
     new_size := Z.of_nat (length numbering);
     ren_map := numbering |}.

(** *** COOtoCSR.cuh *)

Section CountingSort.
Context {A : Type}.

(** Modelled from the spec: the parts of [ConvertCOOtoCSR] (COOtoCSR.cuh is
    not under src/), section 4.2, over keys in [nat] and any payload.

    The payloads of the edges with key [v], in input order. *)
Definition bucket (v : nat) (es : list (nat * A)) : list A :=
  (filter (fun e => e.1 = v) es).*2.

(** Per-vertex degree counts. *)
Definition degree_counts (n : nat) (es : list (nat * A)) : list nat :=
  (fun v => length (bucket v es)) <$> seq 0 n.

(** Prefix sum: [n + 1] running totals, the first one [acc]. *)
Fixpoint exclusive_scan (acc : nat) (c : list nat) : list nat :=
  match c with
  | [] => [acc]
  | x :: c' => acc :: exclusive_scan (acc + x) c'
  end.

(** One edge of the scatter: write at the key's cursor, advance the cursor. *)
Definition scatter_step (st : list nat * list A) (e : nat * A)
    : list nat * list A :=
  match st.1 !! e.1 with
  | Some pos => (<[e.1 := S pos]> st.1, <[pos := e.2]> st.2)
  | None => st
  end.

Definition scatter (cursor : list nat) (out : list A) (es : list (nat * A))
    : list nat * list A :=
  foldl scatter_step (cursor, out) es.

(** Offsets and scattered payloads for [n] vertices; [out] is the freshly
    allocated payload array. *)
Definition counting_sort (n : nat) (out : list A) (es : list (nat * A))
    : list nat * list A :=
  let offs := exclusive_scan 0 (degree_counts n es) in
  (offs, (scatter (take n offs) out es).2).
End CountingSort.

(** Modelled from the spec: part of [ConvertCOOtoCSR]: the first [nnz]
    (key, payload) pairs; an edge whose key is negative has no slot and is
    left out. *)
Definition coo_edges {A} (keys : list Z) (vals : list A) (nnz : Z)
    : list (nat * A) :=
  omap (fun e : Z * A =>
          if bool_decide (0 <= e.1) then Some (Z.to_nat e.1, e.2) else None)
       (take (Z.to_nat nnz) (zip keys vals)).

(** Modelled from the spec: part of [ConvertCOOtoCSR]: the vertex count, one
    more than the largest identifier among the first [nnz] entries. *)
Definition vertex_count (sources destinations : list Z) (nnz : Z) : nat :=
  Z.to_nat (1 + foldr Z.max (-1)
                  (take (Z.to_nat nnz) sources ++ take (Z.to_nat nnz) destinations)).

(** [CSR_Result<T>] of COOtoCSR.cuh, with the fields the callers read
    ([size], [nnz], [rowOffsets], [colIndices]). *)
Record CSR_Result := {
  csr_size : Z;
  csr_nnz : Z;
  rowOffsets : list Z;
  colIndices : list Z
}.

(** [CSR_Result_Weighted<T, WT>] of COOtoCSR.cuh, with the fields the callers
    read. *)
Record CSR_Result_Weighted := {
  csrw_size : Z;
  csrw_nnz : Z;
  csrw_rowOffsets : list Z;
  csrw_colIndices : list Z;
  edgeWeights : list Q
}.

(** Modelled from the spec: [ConvertCOOtoCSR] (COOtoCSR.cuh is not under
    src/).  Section 4.2: "stable counting sort by grouping key (source or
    destination) to produce offsets via a prefix sum of per-vertex degree
    counts, then a scatter of indices (and weights, if present) into position
    using the same prefix-sum offsets as write cursors."  The callers pass no
    vertex count and read it back from the result, so it is derived from the
    identifiers.  The returned integer is the status the callers test. *)
Definition ConvertCOOtoCSR (sources destinations : list Z) (nnz : Z)
    : Z * CSR_Result :=
  let n := vertex_count sources destinations nnz in
  let r := counting_sort n (replicate (Z.to_nat nnz) 0)
             (coo_edges sources destinations nnz) in
  (0, {| csr_size := Z.of_nat n;
         csr_nnz := nnz;
         rowOffsets := Z.of_nat <$> r.1;
         colIndices := r.2 |}).

(** Modelled from the spec: [ConvertCOOtoCSR_weighted] (COOtoCSR.cuh is not
    under src/); the weights travel with the indices. *)
Definition ConvertCOOtoCSR_weighted (sources destinations : list Z)
    (edge_data : list Q) (nnz : Z) : Z * CSR_Result_Weighted :=
  let n := vertex_count sources destinations nnz in
  let r := counting_sort n (replicate (Z.to_nat nnz) (0, 0%Q))
             (coo_edges sources (zip destinations edge_data) nnz) in
  (0, {| csrw_size := Z.of_nat n;
         csrw_nnz := nnz;
         csrw_rowOffsets := Z.of_nat <$> r.1;
         csrw_colIndices := r.2.*1;
         edgeWeights := r.2.*2 |}).

(** *** graph_utils.cuh *)

(** Array read [a[i]]; a read outside the array yields [0]. *)
Definition rd (a : list Z) (i : Z) : Z :=
  if bool_decide (0 <= i) then default 0 (a !! Z.to_nat i) else 0.

(** Modelled from the spec: [cugraph::offsets_to_indices] (graph_utils.cuh is
    not under src/).  Section 3: vertex [v] owns the positions
    [offsets[v] .. offsets[v+1]) of the compressed arrays; the function
    writes [v] at each of them. *)
Definition offsets_to_indices (offs : list Z) (v : Z) : list Z :=
  mjoin ((fun i => replicate (Z.to_nat (rd offs (i + 1) - rd offs i)) i)
           <$> seqZ 0 v).

(** *** pagerank.cuh *)

(** Array read [a[i]] of a floating-point array; outside the array [0]. *)
Definition rdq (a : list Q) (i : Z) : Q :=
  if bool_decide (0 <= i) then default 0%Q (a !! Z.to_nat i) else 0%Q.

Definition sumq (l : list Q) : Q := foldr Qplus 0%Q l.

(** Modelled from the spec: [cugraph::HT_matrix_csc_coo] (graph_utils.cuh is
    not under src/).  It fills the "per-neighbor transition weight" of
    section 4.5, uniform over the out-edges of a vertex (section 8), and the
    vector that flags the vertices without out-edges. *)
Definition HT_matrix_csc_coo (m nnz : Z) (cscPtr cscInd : list Z)
    : list Q * list Q :=
  let ind := take (Z.to_nat nnz) cscInd in
  let degree v := Z.of_nat (length (filter (fun j => j = v) ind)) in
  ((fun j => (1 / inject_Z (degree j))%Q) <$> ind,
   (fun v => if bool_decide (degree v = 0) then 1%Q else 0%Q) <$> seqZ 0 m).

(** Modelled from the spec: part of [cugraph::pagerank], section 4.5 (1): in
    one sweep every vertex accumulates the contributions of its transposed
    neighbour list, each weighted by the transition weight of its edge. *)
Definition pagerank_step (n : Z) (cscPtr cscInd : list Z) (cscVal : list Q)
    (alpha : Q) (a pr : list Q) : list Q :=
  let leaf_mass := sumq (zip_with Qmult a pr) in
  (fun v =>
     (alpha * (sumq ((fun k => (rdq cscVal k * rdq pr (rd cscInd k))%Q)
                       <$> seqZ (rd cscPtr v) (rd cscPtr (v + 1) - rd cscPtr v))
               + leaf_mass / inject_Z n)
      + (1 - alpha) / inject_Z n)%Q) <$> seqZ 0 n.

(** Modelled from the spec: part of [cugraph::pagerank], section 4.5 (2): the
    convergence metric, "sum of absolute differences from the previous
    iterate". *)
Definition residual_of (new old : list Q) : Q :=
  sumq (zip_with (fun x y => Qabs (x - y)) new old).

(** Modelled from the spec: part of [cugraph::pagerank], section 4.5 (3).
    Status [0]: the metric dropped below the tolerance; status [1]: the
    iteration cap was reached first. *)
Fixpoint power_iteration (iters : nat) (step : list Q -> list Q)
    (tolerance : Q) (pr : list Q) : Z * list Q :=
  match iters with
  | O => (1, pr)
  | S iters' =>
      let pr' := step pr in
      if negb (Qle_bool tolerance (residual_of pr' pr)) then (0, pr')
      else power_iteration iters' step tolerance pr'
  end.

(** Modelled from the spec: [cugraph::pagerank] (pagerank.cuh is not under
    src/).  Section 4.5, propagation shape: every vertex participates in every
    iteration; the loop ends "when the metric drops below a caller-supplied
    tolerance or an iteration cap is reached, whichever comes first".  The
    result is the status the caller switches on and the last iterate. *)
Definition pagerank (n e : Z) (cscPtr cscInd : list Z) (cscVal : list Q)
    (alpha : Q) (a : list Q) (has_guess : bool) (tolerance : Q) (max_iter : Z)
    (pagerank_vector : list Q) : Z * list Q :=
  let pr0 := if has_guess then pagerank_vector
             else replicate (Z.to_nat n) (1 / inject_Z n)%Q in
  power_iteration (Z.to_nat max_iter)
    (pagerank_step n cscPtr cscInd cscVal alpha a) tolerance pr0.

(** *** bfs.cuh *)

Definition INT_MAX : Z := 2147483647.

(** Array write [a[i] = x]; a write outside the array is dropped. *)
Definition wr (a : list Z) (i x : Z) : list Z :=
  if bool_decide (0 <= i) then <[Z.to_nat i := x]> a else a.

Definition test_bit (b : list bool) (i : Z) : bool :=
  if bool_decide (0 <= i) then default false (b !! Z.to_nat i) else false.

Definition set_bit (b : list bool) (i : Z) : list bool :=
  if bool_decide (0 <= i) then <[Z.to_nat i := true]> b else b.

Record bfs_level_state := {
  next_bmap : list bool;        (* the next frontier's bitmap *)
  next_frontier : list Z;
  lvl_distances : list Z;
  lvl_predecessors : list Z
}.

(** Modelled from the spec: part of [cugraph::Bfs<int>], section 4.5 (3): the
    operator on one edge [u -> v] at [level]; a neighbour that is neither
    visited nor already in the next frontier is discovered, once. *)
Definition bfs_visit (visited : list bool) (level u : Z)
    (st : bfs_level_state) (v : Z) : bfs_level_state :=
  if test_bit visited v || test_bit (next_bmap st) v then st
  else {| next_bmap := set_bit (next_bmap st) v;
          next_frontier := next_frontier st ++ [v];
          lvl_distances := wr (lvl_distances st) v level;
          lvl_predecessors := wr (lvl_predecessors st) v u |}.

(** The neighbour list of [u] in the compressed arrays. *)
Definition neighbours (row_offsets col_indices : list Z) (u : Z) : list Z :=
  rd col_indices <$> seqZ (rd row_offsets u) (rd row_offsets (u + 1) - rd row_offsets u).

(** Modelled from the spec: part of [cugraph::Bfs<int>], section 4.5: the
    level loop; [None] when [fuel] levels did not empty the frontier. *)
Fixpoint bfs_levels (fuel : nat) (row_offsets col_indices : list Z)
    (level : Z) (frontier : list Z) (visited : list bool)
    (distances predecessors : list Z) : option (list Z * list Z) :=
  match fuel with
  | O => None
  | S fuel' =>
      let visited := foldl set_bit visited frontier in
      let level := level + 1 in
      let st :=
        foldl (fun st u =>
                 foldl (bfs_visit visited level u) st
                       (neighbours row_offsets col_indices u))
              {| next_bmap := replicate (length visited) false;
                 next_frontier := [];
                 lvl_distances := distances;
                 lvl_predecessors := predecessors |}
              frontier in
      match next_frontier st with
      | [] => Some (lvl_distances st, lvl_predecessors st)
      | next =>
          bfs_levels fuel' row_offsets col_indices level next visited
            (lvl_distances st) (lvl_predecessors st)
      end
  end.

(** Modelled from the spec: [cugraph::Bfs<int>] (bfs.cuh is not under src/),
    constructed on [n] vertices and the CSR arrays, configured with the two
    result arrays and run by [traverse(source_vertex)].  Section 4.5,
    traversal shape: per level, mark the frontier visited, let every frontier
    vertex discover its unvisited neighbours ("set distance = level, set
    predecessor = current vertex" exactly once), continue with the next
    frontier until it is empty; "unreached vertices retain a sentinel".  The
    sentinels are the largest distance and the invalid vertex id [-1].  The
    traversal follows the stored edges; [alpha] and [beta] are the tuning
    constants the caller passes. *)
Definition Bfs_traverse (n e : Z) (row_offsets col_indices : list Z)
    (directed : bool) (alpha beta : Z) (source_vertex : Z)
    : option (list Z * list Z) :=
  let nv := Z.to_nat n in
  bfs_levels (S nv) row_offsets col_indices 0 [source_vertex]
    (replicate nv false)
    (wr (replicate nv INT_MAX) source_vertex 0)
    (replicate nv (-1)).

(** ** Device work visible to a caller *)

Inductive event :=
| EvAlloc (bytes : Z)       (* ALLOC_TRY / ALLOC_MANAGED_TRY / cudaMallocManaged *)
| EvFree                    (* ALLOC_FREE_TRY *)
| EvRenumber.               (* a call of cugraph::renumber_vertices *)

(** [ALLOC_TRY(&tmp, sizeof(int32_t) * n, stream)]: an array of [n] integers;
    allocation is taken to succeed and the fresh cells read [0]. *)
Definition alloc_ints (n : Z) : buffer := Ints (replicate (Z.to_nat n) 0).

(** The [size c] integers a column describes. *)
Definition column_ints (c : gdf_column) : list Z :=
  take (Z.to_nat (size c)) (as_ints (data c)).

Definition with_data (d : buffer) (c : gdf_column) : gdf_column :=
  {| data := d; valid := valid c; size := size c; dtype := dtype c;
     null_count := null_count c |}.

(** ** src/cpp/src/cugraph.cu *)
Module Cugraph.

(** The new [gdf_adj_list] has its two columns viewed before the size of the
    edge data is tested, so a failure of that test leaves it attached,
    without edge data. *)
Definition gdf_adj_list_view (c_offsets c_indices : gdf_column)
    (c_edge_data : option gdf_column) : M gdf_graph unit :=
  graph <- get ;;
  GDF_REQUIRE (isnull (edgeList graph) && isnull (adjList graph)
               && isnull (transposedAdjList graph)) GDF_INVALID_API_CALL ;;
  GDF_REQUIRE (bool_decide (null_count c_offsets = 0)) GDF_VALIDITY_UNSUPPORTED ;;
  GDF_REQUIRE (bool_decide (null_count c_indices = 0)) GDF_VALIDITY_UNSUPPORTED ;;
  GDF_REQUIRE (bool_decide (dtype c_offsets = dtype c_indices)) GDF_UNSUPPORTED_DTYPE ;;
  GDF_REQUIRE (bool_decide (dtype c_offsets = GDF_INT32)
               || bool_decide (dtype c_offsets = GDF_INT64)) GDF_UNSUPPORTED_DTYPE ;;
  GDF_REQUIRE (bool_decide (size c_offsets > 0)) GDF_DATASET_EMPTY ;;
  let adj ed := {| offsets := cpy_column_view c_offsets;
                   indices := cpy_column_view c_indices;
                   adj_edge_data := ed;
                   adj_ownership := 0 |} in
  modify (set_adjList (Some (adj None))) ;;
  match c_edge_data with
  | Some ed =>
      GDF_REQUIRE (bool_decide (size c_indices = size ed)) GDF_COLUMN_SIZE_MISMATCH ;;
      modify (set_adjList (Some (adj (Some (cpy_column_view ed))))) ;;
      return_ GDF_SUCCESS
  | None => return_ GDF_SUCCESS
  end.

Definition gdf_edge_list_view (c_src_indices c_dest_indices : gdf_column)
    (c_edge_data : option gdf_column) : M gdf_graph unit :=
  graph <- get ;;
  GDF_REQUIRE (isnull (edgeList graph) && isnull (adjList graph)
               && isnull (transposedAdjList graph)) GDF_INVALID_API_CALL ;;
  GDF_REQUIRE (bool_decide (size c_src_indices = size c_dest_indices)) GDF_COLUMN_SIZE_MISMATCH ;;
  GDF_REQUIRE (bool_decide (dtype c_src_indices = dtype c_dest_indices)) GDF_UNSUPPORTED_DTYPE ;;
  GDF_REQUIRE (bool_decide (dtype c_src_indices = GDF_INT32)
               || bool_decide (dtype c_src_indices = GDF_INT64)) GDF_UNSUPPORTED_DTYPE ;;
  GDF_REQUIRE (bool_decide (size c_src_indices > 0)) GDF_DATASET_EMPTY ;;
  GDF_REQUIRE (bool_decide (null_count c_src_indices = 0)) GDF_VALIDITY_UNSUPPORTED ;;
  GDF_REQUIRE (bool_decide (null_count c_dest_indices = 0)) GDF_VALIDITY_UNSUPPORTED ;;
  let el ed := {| src_indices := cpy_column_view c_src_indices;
                  dest_indices := cpy_column_view c_dest_indices;
                  edge_data := ed;
                  ownership := 0 |} in
  modify (set_edgeList (Some (el None))) ;;
  match c_edge_data with
  | Some ed =>
      GDF_REQUIRE (bool_decide (size c_src_indices = size ed)) GDF_COLUMN_SIZE_MISMATCH ;;
      modify (set_edgeList (Some (el (Some (cpy_column_view ed))))) ;;
      return_ GDF_SUCCESS
  | None => return_ GDF_SUCCESS
  end.

(** The three output descriptors of [gdf_renumber_vertices], owned by the
    caller, and the device work done so far. *)
Record renumber_state := {
  src_renumbered : gdf_column;
  dst_renumbered : gdf_column;
  numbering_map : gdf_column;
  work : list event
}.

Definition log (e : event) : M renumber_state unit :=
  modify (fun st => {| src_renumbered := src_renumbered st;
                       dst_renumbered := dst_renumbered st;
                       numbering_map := numbering_map st;
                       work := work st ++ [e] |}).

Definition set_src_renumbered (f : gdf_column -> gdf_column) : M renumber_state unit :=
  modify (fun st => {| src_renumbered := f (src_renumbered st);
                       dst_renumbered := dst_renumbered st;
                       numbering_map := numbering_map st;
                       work := work st |}).

Definition set_dst_renumbered (f : gdf_column -> gdf_column) : M renumber_state unit :=
  modify (fun st => {| src_renumbered := src_renumbered st;
                       dst_renumbered := f (dst_renumbered st);
                       numbering_map := numbering_map st;
                       work := work st |}).

Definition set_numbering_map (c : gdf_column) : M renumber_state unit :=
  modify (fun st => {| src_renumbered := src_renumbered st;
                       dst_renumbered := dst_renumbered st;
                       numbering_map := c;
                       work := work st |}).

(** The call of [cugraph::renumber_vertices]: it writes the dense ids through
    the two data pointers and hands back the size and the map. *)
Definition call_renumber_vertices (src_size : Z) (src dst : gdf_column)
    : M renumber_state renumbering :=
  let r := renumber_vertices src_size (as_ints (data src)) (as_ints (data dst)) in
  log EvRenumber ;;
  set_src_renumbered (with_data (Ints (ren_src r))) ;;
  set_dst_renumbered (with_data (Ints (ren_dst r))) ;;
  ret r.

(** [new_size] is a [size_t]; [gdf_column_view] takes the size of a column as
    a [gdf_size_type], a 32-bit [int], so the count is narrowed when the
    numbering map is viewed.  The 64-bit branch compares the count with
    0x7fffffff before that; the 32-bit branch does not. *)
Definition gdf_renumber_vertices (src dst : gdf_column) : M renumber_state unit :=
  GDF_REQUIRE (bool_decide (size src = size dst)) GDF_COLUMN_SIZE_MISMATCH ;;
  GDF_REQUIRE (bool_decide (dtype src = dtype dst)) GDF_UNSUPPORTED_DTYPE ;;
  GDF_REQUIRE (bool_decide (dtype src = GDF_INT32)
               || bool_decide (dtype src = GDF_INT64)) GDF_UNSUPPORTED_DTYPE ;;
  GDF_REQUIRE (bool_decide (size src > 0)) GDF_DATASET_EMPTY ;;
  let src_size := size src in
  if bool_decide (dtype src = GDF_INT32) then
    log (EvAlloc (4 * size src)) ;;
    set_src_renumbered (fun _ =>
      gdf_column_view (alloc_ints (size src)) (valid src) (size src) (dtype src)) ;;
    log (EvAlloc (4 * size src)) ;;
    set_dst_renumbered (fun _ =>
      gdf_column_view (alloc_ints (size src)) (valid dst) (size dst) (dtype dst)) ;;
    r <- call_renumber_vertices src_size src dst ;;
    if bool_decide (ren_err r <> GDF_SUCCESS) then return_ (ren_err r)
    else
      set_numbering_map
        (gdf_column_view (Ints (ren_map r)) None (to_int32 (new_size r)) (dtype src)) ;;
      return_ GDF_SUCCESS
  else if bool_decide (dtype src = GDF_INT64) then
    log (EvAlloc (4 * size src)) ;;
    set_src_renumbered (fun _ =>
      gdf_column_view (alloc_ints (size src)) (valid src) (size src) GDF_INT32) ;;
    log (EvAlloc (4 * size src)) ;;
    set_dst_renumbered (fun _ =>
      gdf_column_view (alloc_ints (size src)) (valid dst) (size dst) GDF_INT32) ;;
    r <- call_renumber_vertices src_size src dst ;;
    if bool_decide (ren_err r <> GDF_SUCCESS) then return_ (ren_err r)
    else if bool_decide (new_size r > 0x7fffffff) then
      log EvFree ;;
      log EvFree ;;
      return_ GDF_COLUMN_SIZE_TOO_BIG
    else
      set_numbering_map
        (gdf_column_view (Ints (ren_map r)) None (to_int32 (new_size r)) (dtype src)) ;;
      return_ GDF_SUCCESS
  else return_ GDF_UNSUPPORTED_DTYPE.

(** The adjacency list a converter result is viewed as. *)
Definition view_csr (r : CSR_Result) (t : gdf_dtype) : gdf_adj_list :=
  {| offsets := gdf_column_view (Ints (rowOffsets r)) None (csr_size r + 1) t;
     indices := gdf_column_view (Ints (colIndices r)) None (csr_nnz r) t;
     adj_edge_data := None;
     adj_ownership := 1 |}.

Definition view_csr_weighted (r : CSR_Result_Weighted) (t wt : gdf_dtype)
    : gdf_adj_list :=
  {| offsets := gdf_column_view (Ints (csrw_rowOffsets r)) None (csrw_size r + 1) t;
     indices := gdf_column_view (Ints (csrw_colIndices r)) None (csrw_nnz r) t;
     adj_edge_data :=
       Some (gdf_column_view (Reals (edgeWeights r)) None (csrw_nnz r) wt);
     adj_ownership := 1 |}.

(** [gdf_add_adj_list_impl<T, WT>]; both widths of [WT] are [Q] here. *)
Definition gdf_add_adj_list_impl : M gdf_graph unit :=
  graph <- get ;;
  if isnull (adjList graph) then
    GDF_REQUIRE (negb (isnull (edgeList graph))) GDF_INVALID_API_CALL ;;
    el <- deref (edgeList graph) ;;
    let nnz := size (src_indices el) in
    status <-
      match edge_data el with
      | Some ed =>
          let '(status, adj_list) :=
            ConvertCOOtoCSR_weighted (as_ints (data (src_indices el)))
              (as_ints (data (dest_indices el))) (as_reals (data ed)) nnz in
          modify (set_adjList
                    (Some (view_csr_weighted adj_list (dtype (src_indices el)) (dtype ed)))) ;;
          ret status
      | None =>
          let '(status, adj_list) :=
            ConvertCOOtoCSR (as_ints (data (src_indices el)))
              (as_ints (data (dest_indices el))) nnz in
          modify (set_adjList (Some (view_csr adj_list (dtype (src_indices el))))) ;;
          ret status
      end ;;
    if bool_decide (status <> 0) then return_ GDF_CUDA_ERROR
    else return_ GDF_SUCCESS
  else return_ GDF_SUCCESS.

(** The offsets are read through a pointer to [int] whatever their dtype
    ([int_cells]); [d_src] has one [int] per index. *)
Definition gdf_add_edge_list : M gdf_graph unit :=
  graph <- get ;;
  if isnull (edgeList graph) then
    GDF_REQUIRE (negb (isnull (adjList graph))) GDF_INVALID_API_CALL ;;
    adj <- deref (adjList graph) ;;
    let d_src :=
      resize (Z.to_nat (size (indices adj))) 0
        (offsets_to_indices (int_cells (offsets adj)) (size (offsets adj) - 1)) in
    modify (set_edgeList
      (Some {| src_indices :=
                 gdf_column_view (Ints d_src) None (size (indices adj)) (dtype (indices adj));
               dest_indices := cpy_column_view (indices adj);
               edge_data := cpy_column_view <$> adj_edge_data adj;
               ownership := 2 |})) ;;
    return_ GDF_SUCCESS
  else return_ GDF_SUCCESS.

(** [gdf_add_transposed_adj_list_impl<WT>]: the converter is handed the
    destination array as its grouping key and the source array as payload. *)
Definition gdf_add_transposed_adj_list_impl : M gdf_graph unit :=
  graph <- get ;;
  if isnull (transposedAdjList graph) then
    GDF_REQUIRE (negb (isnull (edgeList graph))) GDF_INVALID_API_CALL ;;
    el <- deref (edgeList graph) ;;
    let nnz := size (src_indices el) in
    status <-
      match edge_data el with
      | Some ed =>
          let '(status, adj_list) :=
            ConvertCOOtoCSR_weighted (as_ints (data (dest_indices el)))
              (as_ints (data (src_indices el))) (as_reals (data ed)) nnz in
          modify (set_transposedAdjList
                    (Some (view_csr_weighted adj_list (dtype (src_indices el)) (dtype ed)))) ;;
          ret status
      | None =>
          let '(status, adj_list) :=
            ConvertCOOtoCSR (as_ints (data (dest_indices el)))
              (as_ints (data (src_indices el))) nnz in
          modify (set_transposedAdjList
                    (Some (view_csr adj_list (dtype (src_indices el))))) ;;
          ret status
      end ;;
    if bool_decide (status <> 0) then return_ GDF_CUDA_ERROR
    else return_ GDF_SUCCESS
  else return_ GDF_SUCCESS.

Definition gdf_add_adj_list : M gdf_graph unit :=
  graph <- get ;;
  if negb (isnull (adjList graph)) then return_ GDF_SUCCESS
  else
    GDF_REQUIRE (negb (isnull (edgeList graph))) GDF_INVALID_API_CALL ;;
    el <- deref (edgeList graph) ;;
    GDF_REQUIRE (bool_decide (dtype (src_indices el) = GDF_INT32)) GDF_UNSUPPORTED_DTYPE ;;
    match edge_data el with
    | Some ed =>
        match dtype ed with
        | GDF_FLOAT32 => gdf_add_adj_list_impl
        | GDF_FLOAT64 => gdf_add_adj_list_impl
        | _ => return_ GDF_UNSUPPORTED_DTYPE
        end
    | None => gdf_add_adj_list_impl
    end.

Definition gdf_add_transposed_adj_list : M gdf_graph unit :=
  graph <- get ;;
  (if isnull (edgeList graph) then _ <- call gdf_add_edge_list ;; ret tt
   else ret tt) ;;
  graph <- get ;;
  el <- deref (edgeList graph) ;;
  GDF_REQUIRE (bool_decide (dtype (src_indices el) = GDF_INT32)) GDF_UNSUPPORTED_DTYPE ;;
  GDF_REQUIRE (bool_decide (dtype (dest_indices el) = GDF_INT32)) GDF_UNSUPPORTED_DTYPE ;;
  match edge_data el with
  | Some ed =>
      match dtype ed with
      | GDF_FLOAT32 => gdf_add_transposed_adj_list_impl
      | GDF_FLOAT64 => gdf_add_transposed_adj_list_impl
      | _ => return_ GDF_UNSUPPORTED_DTYPE
      end
  | None => gdf_add_transposed_adj_list_impl
  end.

Definition gdf_delete_adj_list : M gdf_graph unit :=
  modify (set_adjList None) ;; return_ GDF_SUCCESS.

Definition gdf_delete_edge_list : M gdf_graph unit :=
  modify (set_edgeList None) ;; return_ GDF_SUCCESS.

Definition gdf_delete_transposed_adj_list : M gdf_graph unit :=
  modify (set_transposedAdjList None) ;; return_ GDF_SUCCESS.

(** [gdf_degree_impl] and [gdf_degree].  The kernels [cugraph::degree_offsets]
    and [cugraph::degree_coo] (graph_utils.cuh) and the launch limits
    [CUDA_MAX_KERNEL_THREADS] and [CUDA_MAX_BLOCKS] are not under src/ and are
    parameters here.  A kernel is given its launch configuration
    ([nblocks.x], [nthreads.x]) and its arguments [n], [e], the array of
    [col_ptr] and the degree array; it yields the degree array it leaves
    behind. *)
Section Degree.
Variable degree_offsets degree_coo : Z -> Z -> Z -> Z -> list Z -> list Z -> list Z.
Variable CUDA_MAX_KERNEL_THREADS CUDA_MAX_BLOCKS : Z.

(** The graph and the caller's [gdf_column *degree]. *)
Record degree_state := {
  dg_graph : gdf_graph;
  dg_degree : gdf_column
}.

(** A value stored in the [unsigned int] of a [dim3]. *)
Definition to_unsigned (x : Z) : Z := x mod 2 ^ 32.

(** [nthreads.x = min(k, CUDA_MAX_KERNEL_THREADS);
     nblocks.x = min((k + nthreads.x - 1) / nthreads.x, CUDA_MAX_BLOCKS);]
    as the pair ([nblocks.x], [nthreads.x]).  The division is one of
    unsigned integers; it has no result when [nthreads.x] is [0]. *)
Definition launch_dims (k : Z) : option (Z * Z) :=
  let nthreads := to_unsigned (Z.min k CUDA_MAX_KERNEL_THREADS) in
  if bool_decide (nthreads = 0) then None
  else Some (Z.min (to_unsigned (k + nthreads - 1) / nthreads)
                   (to_unsigned CUDA_MAX_BLOCKS),
             nthreads).

Definition set_degree_data (l : list Z) : M degree_state unit :=
  modify (fun st => {| dg_graph := dg_graph st;
                       dg_degree := with_data (Ints l) (dg_degree st) |}).

(** A division by zero ends the call like a null pointer does: it does not
    return. *)
Definition gdf_degree_impl (n e : Z) (col_ptr : gdf_column) (offsets : bool)
    : M degree_state unit :=
  st <- get ;;
  let degree := dg_degree st in
  if offsets then
    match launch_dims n with
    | None => crash
    | Some (nblocks, nthreads) =>
        match dtype col_ptr with
        | GDF_INT32 =>
            set_degree_data (degree_offsets nblocks nthreads n e
                               (as_ints (data col_ptr)) (as_ints (data degree))) ;;
            return_ GDF_SUCCESS
        | _ => return_ GDF_UNSUPPORTED_DTYPE
        end
    end
  else
    match launch_dims e with
    | None => crash
    | Some (nblocks, nthreads) =>
        match dtype col_ptr with
        | GDF_INT32 =>
            set_degree_data (degree_coo nblocks nthreads n e
                               (as_ints (data col_ptr)) (as_ints (data degree))) ;;
            return_ GDF_SUCCESS
        | _ => return_ GDF_UNSUPPORTED_DTYPE
        end
    end.

(** [x = 0]: in+out degree, [x = 1]: in-degree, [x = 2]: out-degree.  The
    value [gdf_degree_impl] returns is dropped. *)
Definition gdf_degree (x : Z) : M degree_state unit :=
  st <- get ;;
  let graph := dg_graph st in
  GDF_REQUIRE (negb (isnull (adjList graph))
               || negb (isnull (transposedAdjList graph))) GDF_INVALID_API_CALL ;;
  ne <- match adjList graph with
        | Some adj => ret (size (offsets adj) - 1, size (indices adj))
        | None =>
            t <- deref (transposedAdjList graph) ;;
            ret (size (offsets t) - 1, size (indices t))
        end ;;
  let n := ne.1 in
  let e := ne.2 in
  (if bool_decide (x <> 1) then
     match adjList graph with
     | Some adj => _ <- call (gdf_degree_impl n e (offsets adj) true) ;; ret tt
     | None =>
         t <- deref (transposedAdjList graph) ;;
         _ <- call (gdf_degree_impl n e (indices t) false) ;; ret tt
     end
   else ret tt) ;;
  (if bool_decide (x <> 2) then
     match adjList graph with
     | Some adj => _ <- call (gdf_degree_impl n e (indices adj) false) ;; ret tt
     | None =>
         t <- deref (transposedAdjList graph) ;;
         _ <- call (gdf_degree_impl n e (offsets t) true) ;; ret tt
     end
   else ret tt) ;;
  return_ GDF_SUCCESS.
End Degree.

(** [gdf_louvain].  [nvgraphLouvain] belongs to the nvgraph library and is a
    parameter: given the two cuda data types, [n], [e] and the three arrays
    it yields the partition it writes through [louvain_parts->data]; its
    writes through [final_modularity] and [num_level] and its status are not
    looked at by the caller.  The lambda [gdf_to_cudadtype] throws on a dtype
    it has no cuda type for; a throw ends the call without a return value. *)
Section Louvain.
Variable nvgraphLouvain :
  gdf_dtype -> gdf_dtype -> Z -> Z -> buffer -> buffer -> buffer -> buffer.

(** The graph and the caller's [gdf_column *louvain_parts]. *)
Record louvain_state := {
  lv_graph : gdf_graph;
  louvain_parts : gdf_column
}.

Definition on_louvain_graph {A} (m : M gdf_graph A) : M louvain_state A :=
  fun st =>
    let '(o, g) := m (lv_graph st) in
    (o, {| lv_graph := g; louvain_parts := louvain_parts st |}).

(** The dtype stands for the [cudaDataType_t] the lambda maps it to. *)
Definition gdf_to_cudadtype {S} (col : gdf_column) : M S gdf_dtype :=
  match dtype col with
  | GDF_INT8 => ret GDF_INT8
  | GDF_INT32 => ret GDF_INT32
  | GDF_FLOAT32 => ret GDF_FLOAT32
  | GDF_FLOAT64 => ret GDF_FLOAT64
  | _ => crash
  end.

Definition gdf_louvain : M louvain_state unit :=
  st <- get ;;
  GDF_REQUIRE (negb (isnull (adjList (lv_graph st)))
               || negb (isnull (edgeList (lv_graph st)))) GDF_INVALID_API_CALL ;;
  err <- call (on_louvain_graph gdf_add_adj_list) ;;
  if bool_decide (err <> GDF_SUCCESS) then return_ err
  else
    st <- get ;;
    adj <- deref (adjList (lv_graph st)) ;;
    let n := size (offsets adj) - 1 in
    let e := size (indices adj) in
    let offsets_ptr := data (offsets adj) in
    let indices_ptr := data (indices adj) in
    let value_ptr :=
      match adj_edge_data adj with
      | Some ed => data ed
      | None => Reals (replicate (Z.to_nat (size (indices adj))) 1%Q)
      end in
    index_type <- gdf_to_cudadtype (indices adj) ;;
    val_type <- match adj_edge_data adj with
                | Some ed => gdf_to_cudadtype ed
                | None => ret GDF_FLOAT32
                end ;;
    put {| lv_graph := lv_graph st;
           louvain_parts :=
             with_data (nvgraphLouvain index_type val_type n e
                          offsets_ptr indices_ptr value_ptr)
                       (louvain_parts st) |} ;;
    return_ GDF_SUCCESS.
End Louvain.

End Cugraph.

(** ** ktruss.cu, in src/cpp/src/community/louvain_giift.cu

    A caller of [gdf_add_adj_list].  The Hornet graph and the [KTruss] engine
    built on it belong to the Hornet library and are a parameter: from the
    two arrays of the edge list, their size and the number of vertices, the
    value [kt.getMaxK()] yields after [kt.run()].  [CUGRAPH_EXPECTS]
    (utilities/error_utils.h) is not under src/: what it does when its
    condition fails is a parameter as well. *)
Module Ktruss.
Section Hornet.
(** The graph, its [numberOfVertices] member and the caller's [int *k_max]. *)
Record ktruss_state := {
  kt_graph : gdf_graph;
  kt_numberOfVertices : Z;
  k_max : Z
}.

Variable KTruss_getMaxK : list Z -> list Z -> Z -> Z -> Z.
Variable failed_expectation : M ktruss_state unit.

Definition CUGRAPH_EXPECTS (cond : bool) : M ktruss_state unit :=
  if cond then ret tt else failed_expectation.

Definition on_ktruss_graph {A} (m : M gdf_graph A) : M ktruss_state A :=
  fun st =>
    let '(o, g) := m (kt_graph st) in
    (o, {| kt_graph := g; kt_numberOfVertices := kt_numberOfVertices st;
           k_max := k_max st |}).

Definition ktruss_max_impl : M ktruss_state unit :=
  err <- call (on_ktruss_graph Cugraph.gdf_add_adj_list) ;;
  if bool_decide (err <> GDF_SUCCESS) then return_ err
  else
    st <- get ;;
    el <- deref (edgeList (kt_graph st)) ;;
    let src := as_ints (data (src_indices el)) in
    let dst := as_ints (data (dest_indices el)) in
    put {| kt_graph := kt_graph st;
           kt_numberOfVertices := kt_numberOfVertices st;
           k_max := KTruss_getMaxK src dst (size (src_indices el))
                      (kt_numberOfVertices st) |} ;;
    return_ GDF_SUCCESS.

(** The two columns of an edge list are always there in this embedding, so
    the first expectation (one of the two column pointers is not null) holds
    once the edge list itself could be read.  The value [ktruss_max_impl]
    returns is dropped. *)
Definition gdf_k_truss_max : M ktruss_state unit :=
  st <- get ;;
  el <- deref (edgeList (kt_graph st)) ;;
  CUGRAPH_EXPECTS true ;;
  CUGRAPH_EXPECTS (negb (is_nullptr (data (src_indices el)))
                   || negb (is_nullptr (data (dest_indices el)))) ;;
  CUGRAPH_EXPECTS (bool_decide (dtype (src_indices el) = GDF_INT32)) ;;
  CUGRAPH_EXPECTS (bool_decide (dtype (dest_indices el) = GDF_INT32)) ;;
  _ <- call ktruss_max_impl ;;
  return_ GDF_SUCCESS.
End Hornet.
End Ktruss.

(** ** The older copy of cugraph.cu that opens src/unnamed/part_005

    The [printf] calls of this copy write to the standard output only and are
    left out. *)
Module Part005.

Definition gdf_adj_list_view (c_offsets c_indices : gdf_column)
    (c_edge_data : option gdf_column) : M gdf_graph unit :=
  graph <- get ;;
  GDF_REQUIRE (bool_decide (null_count c_offsets = 0)) GDF_VALIDITY_UNSUPPORTED ;;
  GDF_REQUIRE (bool_decide (null_count c_indices = 0)) GDF_VALIDITY_UNSUPPORTED ;;
  GDF_REQUIRE (bool_decide (dtype c_offsets = dtype c_indices)) GDF_UNSUPPORTED_DTYPE ;;
  GDF_REQUIRE (bool_decide (dtype c_offsets = GDF_INT32)
               || bool_decide (dtype c_offsets = GDF_INT64)) GDF_UNSUPPORTED_DTYPE ;;
  GDF_REQUIRE (bool_decide (size c_offsets > 0)) GDF_DATASET_EMPTY ;;
  GDF_REQUIRE (isnull (adjList graph)) GDF_INVALID_API_CALL ;;
  let adj ed := {| offsets := cpy_column_view c_offsets;
                   indices := cpy_column_view c_indices;
                   adj_edge_data := ed;
                   adj_ownership := 0 |} in
  modify (set_adjList (Some (adj None))) ;;
  match c_edge_data with
  | Some ed =>
      GDF_REQUIRE (bool_decide (size c_indices = size ed)) GDF_COLUMN_SIZE_MISMATCH ;;
      modify (set_adjList (Some (adj (Some (cpy_column_view ed))))) ;;
      return_ GDF_SUCCESS
  | None => return_ GDF_SUCCESS
  end.

Definition gdf_edge_list_view (c_src_indices c_dest_indices : gdf_column)
    (c_edge_data : option gdf_column) : M gdf_graph unit :=
  graph <- get ;;
  GDF_REQUIRE (bool_decide (size c_src_indices = size c_dest_indices)) GDF_COLUMN_SIZE_MISMATCH ;;
  GDF_REQUIRE (bool_decide (dtype c_src_indices = dtype c_dest_indices)) GDF_UNSUPPORTED_DTYPE ;;
  GDF_REQUIRE (bool_decide (dtype c_src_indices = GDF_INT32)
               || bool_decide (dtype c_src_indices = GDF_INT64)) GDF_UNSUPPORTED_DTYPE ;;
  GDF_REQUIRE (bool_decide (size c_src_indices > 0)) GDF_DATASET_EMPTY ;;
  GDF_REQUIRE (bool_decide (null_count c_src_indices = 0)) GDF_VALIDITY_UNSUPPORTED ;;
  GDF_REQUIRE (bool_decide (null_count c_dest_indices = 0)) GDF_VALIDITY_UNSUPPORTED ;;
  GDF_REQUIRE (isnull (edgeList graph)) GDF_INVALID_API_CALL ;;
  let el ed := {| src_indices := cpy_column_view c_src_indices;
                  dest_indices := cpy_column_view c_dest_indices;
                  edge_data := ed;
                  ownership := 0 |} in
  modify (set_edgeList (Some (el None))) ;;
  match c_edge_data with
  | Some ed =>
      GDF_REQUIRE (bool_decide (size c_src_indices = size ed)) GDF_COLUMN_SIZE_MISMATCH ;;
      modify (set_edgeList (Some (el (Some (cpy_column_view ed))))) ;;
      return_ GDF_SUCCESS
  | None => return_ GDF_SUCCESS
  end.

(** The three [gdf_column **] outputs (what each pointer cell holds) and the
    device work done so far. *)
Record renumber_state := {
  src_renumbered : option gdf_column;
  dst_renumbered : option gdf_column;
  numbering_map : option gdf_column;
  work : list event
}.

Definition log (e : event) : M renumber_state unit :=
  modify (fun st => {| src_renumbered := src_renumbered st;
                       dst_renumbered := dst_renumbered st;
                       numbering_map := numbering_map st;
                       work := work st ++ [e] |}).

Definition set_src_renumbered (f : gdf_column -> gdf_column) : M renumber_state unit :=
  modify (fun st => {| src_renumbered := f <$> src_renumbered st;
                       dst_renumbered := dst_renumbered st;
                       numbering_map := numbering_map st;
                       work := work st |}).

Definition set_dst_renumbered (f : gdf_column -> gdf_column) : M renumber_state unit :=
  modify (fun st => {| src_renumbered := src_renumbered st;
                       dst_renumbered := f <$> dst_renumbered st;
                       numbering_map := numbering_map st;
                       work := work st |}).

Definition set_numbering_map (f : gdf_column -> gdf_column) : M renumber_state unit :=
  modify (fun st => {| src_renumbered := src_renumbered st;
                       dst_renumbered := dst_renumbered st;
                       numbering_map := f <$> numbering_map st;
                       work := work st |}).

(** [new gdf_column]: a descriptor whose fields are not yet set. *)
Definition new_gdf_column : gdf_column :=
  {| data := Null; valid := None; size := 0; dtype := GDF_DTYPE_OTHER;
     null_count := 0 |}.

Definition new_columns : M renumber_state unit :=
  modify (fun st => {| src_renumbered := Some new_gdf_column;
                       dst_renumbered := Some new_gdf_column;
                       numbering_map := Some new_gdf_column;
                       work := work st |}).

Definition call_renumber_vertices (src_size : Z) (src dst : gdf_column)
    : M renumber_state renumbering :=
  let r := renumber_vertices src_size (as_ints (data src)) (as_ints (data dst)) in
  log EvRenumber ;;
  set_src_renumbered (with_data (Ints (ren_src r))) ;;
  set_dst_renumbered (with_data (Ints (ren_dst r))) ;;
  ret r.

(** As in cugraph.cu, the [size_t] count is narrowed to the [gdf_size_type]
    size of the numbering map, untested on the 32-bit branch. *)
Definition gdf_renumber_vertices (src dst : gdf_column) : M renumber_state unit :=
  GDF_REQUIRE (bool_decide (size src = size dst)) GDF_COLUMN_SIZE_MISMATCH ;;
  GDF_REQUIRE (bool_decide (dtype src = dtype dst)) GDF_UNSUPPORTED_DTYPE ;;
  GDF_REQUIRE (bool_decide (dtype src = GDF_INT32)
               || bool_decide (dtype src = GDF_INT64)) GDF_UNSUPPORTED_DTYPE ;;
  GDF_REQUIRE (bool_decide (size src > 0)) GDF_DATASET_EMPTY ;;
  new_columns ;;
  let src_size := size src in
  if bool_decide (dtype src = GDF_INT32) then
    log (EvAlloc (4 * size src)) ;;
    set_src_renumbered (fun _ =>
      gdf_column_view (alloc_ints (size src)) (valid src) (size src) (dtype src)) ;;
    log (EvAlloc (4 * size src)) ;;
    set_dst_renumbered (fun _ =>
      gdf_column_view (alloc_ints (size src)) (valid dst) (size dst) (dtype dst)) ;;
    r <- call_renumber_vertices src_size src dst ;;
    if bool_decide (ren_err r <> GDF_SUCCESS) then return_ (ren_err r)
    else
      set_numbering_map (fun _ =>
        gdf_column_view (Ints (ren_map r)) None (to_int32 (new_size r)) GDF_INT32) ;;
      return_ GDF_SUCCESS
  else if bool_decide (dtype src = GDF_INT64) then
    log (EvAlloc (4 * size src)) ;;
    set_src_renumbered (fun _ =>
      gdf_column_view (alloc_ints (size src)) (valid src) (size src) GDF_INT32) ;;
    log (EvAlloc (4 * size src)) ;;
    set_dst_renumbered (fun _ =>
      gdf_column_view (alloc_ints (size src)) (valid dst) (size dst) GDF_INT32) ;;
    r <- call_renumber_vertices src_size src dst ;;
    if bool_decide (ren_err r <> GDF_SUCCESS) then return_ (ren_err r)
    else if bool_decide (new_size r > 0x7fffffff) then
      log EvFree ;;
      log EvFree ;;
      return_ GDF_COLUMN_SIZE_TOO_BIG
    else
      set_numbering_map (fun _ =>
        gdf_column_view (Ints (ren_map r)) None (to_int32 (new_size r)) GDF_INT32) ;;
      return_ GDF_SUCCESS
  else return_ GDF_UNSUPPORTED_DTYPE.

(** [gdf_add_adj_list_impl<T, WT>]. *)
Definition gdf_add_adj_list_impl : M gdf_graph unit :=
  graph <- get ;;
  if isnull (adjList graph) then
    GDF_REQUIRE (negb (isnull (edgeList graph))) GDF_INVALID_API_CALL ;;
    el <- deref (edgeList graph) ;;
    let nnz := size (src_indices el) in
    status <-
      match edge_data el with
      | Some ed =>
          let '(status, adj_list) :=
            ConvertCOOtoCSR_weighted (as_ints (data (src_indices el)))
              (as_ints (data (dest_indices el))) (as_reals (data ed)) nnz in
          modify (set_adjList
                    (Some (Cugraph.view_csr_weighted adj_list
                             (dtype (src_indices el)) (dtype ed)))) ;;
          ret status
      | None =>
          let '(status, adj_list) :=
            ConvertCOOtoCSR (as_ints (data (src_indices el)))
              (as_ints (data (dest_indices el))) nnz in
          modify (set_adjList
                    (Some (Cugraph.view_csr adj_list (dtype (src_indices el))))) ;;
          ret status
      end ;;
    if bool_decide (status <> 0) then return_ GDF_CUDA_ERROR
    else return_ GDF_SUCCESS
  else return_ GDF_SUCCESS.

(** The offsets are read through a pointer to [int], as in cugraph.cu. *)
Definition gdf_add_edge_list : M gdf_graph unit :=
  graph <- get ;;
  if isnull (edgeList graph) then
    GDF_REQUIRE (negb (isnull (adjList graph))) GDF_INVALID_API_CALL ;;
    adj <- deref (adjList graph) ;;
    let d_src :=
      resize (Z.to_nat (size (indices adj))) 0
        (offsets_to_indices (int_cells (offsets adj)) (size (offsets adj) - 1)) in
    modify (set_edgeList
      (Some {| src_indices :=
                 gdf_column_view (Ints d_src) None (size (indices adj)) (dtype (indices adj));
               dest_indices := cpy_column_view (indices adj);
               edge_data := cpy_column_view <$> adj_edge_data adj;
               ownership := 2 |})) ;;
    return_ GDF_SUCCESS
  else return_ GDF_SUCCESS.

(** [gdf_add_transpose_impl<T, WT>]. *)
Definition gdf_add_transpose_impl : M gdf_graph unit :=
  graph <- get ;;
  if isnull (transposedAdjList graph) then
    GDF_REQUIRE (negb (isnull (edgeList graph))) GDF_INVALID_API_CALL ;;
    el <- deref (edgeList graph) ;;
    let nnz := size (src_indices el) in
    status <-
      match edge_data el with
      | Some ed =>
          let '(status, adj_list) :=
            ConvertCOOtoCSR_weighted (as_ints (data (dest_indices el)))
              (as_ints (data (src_indices el))) (as_reals (data ed)) nnz in
          modify (set_transposedAdjList
                    (Some (Cugraph.view_csr_weighted adj_list
                             (dtype (src_indices el)) (dtype ed)))) ;;
          ret status
      | None =>
          let '(status, adj_list) :=
            ConvertCOOtoCSR (as_ints (data (dest_indices el)))
              (as_ints (data (src_indices el))) nnz in
          modify (set_transposedAdjList
                    (Some (Cugraph.view_csr adj_list (dtype (src_indices el))))) ;;
          ret status
      end ;;
    if bool_decide (status <> 0) then return_ GDF_CUDA_ERROR
    else return_ GDF_SUCCESS
  else return_ GDF_SUCCESS.

Definition gdf_add_adj_list : M gdf_graph unit :=
  graph <- get ;;
  if negb (isnull (adjList graph)) then return_ GDF_SUCCESS
  else
    GDF_REQUIRE (negb (isnull (edgeList graph))) GDF_INVALID_API_CALL ;;
    el <- deref (edgeList graph) ;;
    GDF_REQUIRE (bool_decide (dtype (src_indices el) = GDF_INT32)) GDF_UNSUPPORTED_DTYPE ;;
    match edge_data el with
    | Some ed =>
        match dtype ed with
        | GDF_FLOAT32 => gdf_add_adj_list_impl
        | GDF_FLOAT64 => gdf_add_adj_list_impl
        | _ => return_ GDF_UNSUPPORTED_DTYPE
        end
    | None => gdf_add_adj_list_impl
    end.

Definition gdf_add_transpose : M gdf_graph unit :=
  graph <- get ;;
  (if isnull (edgeList graph) then _ <- call gdf_add_edge_list ;; ret tt
   else ret tt) ;;
  graph <- get ;;
  el <- deref (edgeList graph) ;;
  GDF_REQUIRE (bool_decide (dtype (src_indices el) = GDF_INT32)) GDF_UNSUPPORTED_DTYPE ;;
  GDF_REQUIRE (bool_decide (dtype (dest_indices el) = GDF_INT32)) GDF_UNSUPPORTED_DTYPE ;;
  match edge_data el with
  | Some ed =>
      match dtype ed with
      | GDF_FLOAT32 => gdf_add_transpose_impl
      | GDF_FLOAT64 => gdf_add_transpose_impl
      | _ => return_ GDF_UNSUPPORTED_DTYPE
      end
  | None => gdf_add_transpose_impl
  end.

(** The graph and the caller's [gdf_column *pagerank]. *)
Record pagerank_state := {
  pr_graph : gdf_graph;
  pr_column : option gdf_column
}.

Definition on_graph {A} (m : M gdf_graph A) : M pagerank_state A :=
  fun st =>
    let '(o, g) := m (pr_graph st) in
    (o, {| pr_graph := g; pr_column := pr_column st |}).

(** [cugraph::copy<WT>(m, src, dst)]: the first [m] cells of [dst] are
    overwritten. *)
Definition copy (m : Z) (src dst : list Q) : list Q :=
  take (Z.to_nat m) src ++ drop (Z.to_nat m) dst.

Definition set_pr_data (d : buffer) : M pagerank_state unit :=
  modify (fun st => {| pr_graph := pr_graph st;
                       pr_column := with_data d <$> pr_column st |}).

(** [gdf_pagerank_impl<T, WT>]. *)
Definition gdf_pagerank_impl (alpha tolerance : Q) (max_iter : Z)
    (has_guess : bool) : M pagerank_state unit :=
  st <- get ;;
  let graph := pr_graph st in
  GDF_REQUIRE (negb (isnull (edgeList graph))) GDF_VALIDITY_UNSUPPORTED ;;
  el <- deref (edgeList graph) ;;
  GDF_REQUIRE (bool_decide (size (src_indices el) = size (dest_indices el)))
    GDF_COLUMN_SIZE_MISMATCH ;;
  GDF_REQUIRE (bool_decide (dtype (src_indices el) = dtype (dest_indices el)))
    GDF_UNSUPPORTED_DTYPE ;;
  GDF_REQUIRE (bool_decide (null_count (src_indices el) = 0)) GDF_VALIDITY_UNSUPPORTED ;;
  GDF_REQUIRE (bool_decide (null_count (dest_indices el) = 0)) GDF_VALIDITY_UNSUPPORTED ;;
  GDF_REQUIRE (negb (isnull (pr_column st))) GDF_INVALID_API_CALL ;;
  pr <- deref (pr_column st) ;;
  GDF_REQUIRE (negb (is_nullptr (data pr))) GDF_INVALID_API_CALL ;;
  GDF_REQUIRE (bool_decide (null_count pr = 0)) GDF_VALIDITY_UNSUPPORTED ;;
  GDF_REQUIRE (bool_decide (size pr > 0)) GDF_INVALID_API_CALL ;;
  let m := size pr in
  let nnz := size (src_indices el) in
  (if isnull (transposedAdjList graph)
   then _ <- call (on_graph gdf_add_transpose) ;; ret tt
   else ret tt) ;;
  st <- get ;;
  t <- deref (transposedAdjList (pr_graph st)) ;;
  let csc_offsets := as_ints (data (offsets t)) in
  let csc_indices := as_ints (data (indices t)) in
  let '(d_val, d_leaf_vector) := HT_matrix_csc_coo m nnz csc_offsets csc_indices in
  d_pr <-
    (if has_guess then
       GDF_REQUIRE (negb (is_nullptr (data pr))) GDF_VALIDITY_UNSUPPORTED ;;
       ret (copy m (as_reals (data pr)) (replicate (Z.to_nat m) 0%Q))
     else ret (replicate (Z.to_nat m) 0%Q)) ;;
  let '(status, d_pr) :=
    pagerank m nnz csc_offsets csc_indices d_val alpha d_leaf_vector false
      tolerance max_iter d_pr in
  if bool_decide (status <> 0) then
    if bool_decide (status = -1) then return_ GDF_CUDA_ERROR
    else if bool_decide (status = 1) then return_ GDF_CUDA_ERROR
    else return_ GDF_CUDA_ERROR
  else
    set_pr_data (Reals (copy m d_pr (as_reals (data pr)))) ;;
    return_ GDF_SUCCESS.

Definition gdf_pagerank (alpha tolerance : Q) (max_iter : Z) (has_guess : bool)
    : M pagerank_state unit :=
  st <- get ;;
  GDF_REQUIRE (negb (isnull (adjList (pr_graph st)))
               || negb (isnull (edgeList (pr_graph st)))) GDF_INVALID_API_CALL ;;
  err <- call (on_graph gdf_add_adj_list) ;;
  if bool_decide (err <> GDF_SUCCESS) then return_ err
  else
    st <- get ;;
    adj <- deref (adjList (pr_graph st)) ;;
    GDF_REQUIRE (bool_decide (dtype (offsets adj) = GDF_INT32)) GDF_UNSUPPORTED_DTYPE ;;
    GDF_REQUIRE (bool_decide (dtype (indices adj) = GDF_INT32)) GDF_UNSUPPORTED_DTYPE ;;
    pr <- deref (pr_column st) ;;
    match dtype pr with
    | GDF_FLOAT32 => gdf_pagerank_impl alpha tolerance max_iter has_guess
    | GDF_FLOAT64 => gdf_pagerank_impl alpha tolerance max_iter has_guess
    | _ => return_ GDF_UNSUPPORTED_DTYPE
    end.

(** The graph and the caller's two result columns of [gdf_bfs]. *)
Record bfs_state := {
  bfs_graph : gdf_graph;
  distances : gdf_column;
  predecessors : gdf_column
}.

Definition on_bfs_graph {A} (m : M gdf_graph A) : M bfs_state A :=
  fun st =>
    let '(o, g) := m (bfs_graph st) in
    (o, {| bfs_graph := g; distances := distances st;
           predecessors := predecessors st |}).

(** The first [n] cells of a result array are overwritten. *)
Definition store (n : Z) (vals : list Z) (c : gdf_column) : gdf_column :=
  with_data (Ints (take (Z.to_nat n) vals ++ drop (Z.to_nat n) (as_ints (data c)))) c.

Definition gdf_bfs (start_node : Z) (directed : bool) : M bfs_state unit :=
  st <- get ;;
  GDF_REQUIRE (negb (isnull (adjList (bfs_graph st)))
               || negb (isnull (edgeList (bfs_graph st)))) GDF_INVALID_API_CALL ;;
  err <- call (on_bfs_graph gdf_add_adj_list) ;;
  if bool_decide (err <> GDF_SUCCESS) then return_ err
  else
    st <- get ;;
    adj <- deref (adjList (bfs_graph st)) ;;
    GDF_REQUIRE (bool_decide (dtype (offsets adj) = GDF_INT32)) GDF_UNSUPPORTED_DTYPE ;;
    GDF_REQUIRE (bool_decide (dtype (indices adj) = GDF_INT32)) GDF_UNSUPPORTED_DTYPE ;;
    GDF_REQUIRE (bool_decide (dtype (distances st) = GDF_INT32)) GDF_UNSUPPORTED_DTYPE ;;
    GDF_REQUIRE (bool_decide (dtype (predecessors st) = GDF_INT32)) GDF_UNSUPPORTED_DTYPE ;;
    let n := size (offsets adj) - 1 in
    let e := size (indices adj) in
    let alpha := 15 in
    let beta := 18 in
    match Bfs_traverse n e (as_ints (data (offsets adj)))
            (as_ints (data (indices adj))) directed alpha beta start_node with
    | Some (d, p) =>
        put {| bfs_graph := bfs_graph st;
               distances := store n d (distances st);
               predecessors := store n p (predecessors st) |} ;;
        return_ GDF_SUCCESS
    | None => crash
    end.

Definition gdf_delete_adj_list : M gdf_graph unit :=
  modify (set_adjList None) ;; return_ GDF_SUCCESS.

Definition gdf_delete_edge_list : M gdf_graph unit :=
  modify (set_edgeList None) ;; return_ GDF_SUCCESS.

Definition gdf_delete_transpose : M gdf_graph unit :=
  modify (set_transposedAdjList None) ;; return_ GDF_SUCCESS.

End Part005.

(** ** Degree-bucket workers (worker_kernels.cuh, in src/unnamed/part_005) *)
Module Opg.

Record GraphCSRView := {
  g_offsets : list Z;
  g_indices : list Z;
  number_of_vertices : Z;
  number_of_edges : Z
}.

(** [DegreeBucket<VT, ET>] of vertex_binning.cuh, with the fields the workers
    read. *)
Record DegreeBucket := {
  vertexIds : list Z;
  numberOfVertices : Z;
  ceilLogDegreeEnd : Z
}.

Inductive kernel :=
| kernel_per_vertex_worker_weightless
| block_per_vertex_worker_weightless.

(** A kernel launch [k<<<grid, block, 0, stream>>>]. *)
Record launch := { l_kernel : kernel; l_grid : Z; l_block : Z }.

(** The values [start, start + stride, ...] below [stop]. *)
Definition strided (start stop stride : Z) : list Z :=
  if bool_decide (0 < stride) then
    (fun i => start + i * stride) <$> seqZ 0 ((stop - start + stride - 1) / stride)
  else [].

Section Workers.
(** What the operator acts on, and the operator [op(source, destination)]. *)
Context {S : Type}.
Variable op : Z -> Z -> S -> S.

(** Device memory as the operator sees it, and the launches issued. *)
Record device := { mem : S; launches : list launch }.

(** One thread of [kernel_per_vertex_worker_weightless]. *)
Definition per_vertex_thread (graph : GraphCSRView) (vertex_ids : list Z)
    (number_of_vertices : Z) (tid stride : Z) (s : S) : S :=
  foldl (fun s current_vertex_index =>
           let source := rd vertex_ids current_vertex_index in
           let offset_begin := rd (g_offsets graph) source in
           let offset_end := rd (g_offsets graph) (source + 1) in
           foldl (fun s edge_index => op source (rd (g_indices graph) edge_index) s)
                 s (strided (tid + offset_begin) offset_end stride))
        s (seqZ 0 number_of_vertices).

(** One thread of [block_per_vertex_worker_weightless]. *)
Definition block_per_vertex_thread (graph : GraphCSRView) (vertex_ids : list Z)
    (number_of_vertices : Z) (blockIdx threadIdx blockDim : Z) (s : S) : S :=
  let current_vertex_index := blockIdx in
  if bool_decide (current_vertex_index >= number_of_vertices) then s
  else
    let source := rd vertex_ids current_vertex_index in
    foldl (fun s edge_index => op source (rd (g_indices graph) edge_index) s)
          s (strided (threadIdx + rd (g_offsets graph) source)
                     (rd (g_offsets graph) (source + 1)) blockDim).

(** A launch runs every thread of every block to completion; the threads
    are taken in block order, then thread order. *)
Definition launch_kernel (k : kernel) (grid block : Z)
    (thread : Z -> Z -> S -> S) (d : device) : device :=
  {| mem := foldl (fun s b => foldl (fun s t => thread b t s) s (seqZ 0 block))
                  (mem d) (seqZ 0 grid);
     launches := launches d ++ [ {| l_kernel := k; l_grid := grid; l_block := block |} ] |}.

Definition large_vertex_worker (graph : GraphCSRView) (bucket : DegreeBucket)
    (d : device) : device :=
  let block_size := 32 in
  let block_count := 1024 in
  if bool_decide (numberOfVertices bucket <> 0) then
    launch_kernel kernel_per_vertex_worker_weightless block_count block_size
      (fun blockIdx threadIdx =>
         per_vertex_thread graph (vertexIds bucket) (numberOfVertices bucket)
           (threadIdx + blockIdx * block_size) (block_size * block_count)) d
  else d.

Definition medium_vertex_worker (graph : GraphCSRView) (bucket : DegreeBucket)
    (d : device) : device :=
  let block_size := 1024 in
  let block_count := numberOfVertices bucket in
  if bool_decide (block_count <> 0) then
    launch_kernel block_per_vertex_worker_weightless block_count block_size
      (fun blockIdx threadIdx =>
         block_per_vertex_thread graph (vertexIds bucket) (numberOfVertices bucket)
           blockIdx threadIdx block_size) d
  else d.

Definition small_vertex_worker (graph : GraphCSRView) (bucket : DegreeBucket)
    (d : device) : device :=
  let block_size :=
    if bool_decide (ceilLogDegreeEnd bucket < 6) then 32
    else if bool_decide (ceilLogDegreeEnd bucket < 8) then 64
    else if bool_decide (ceilLogDegreeEnd bucket < 10) then 128
    else if bool_decide (ceilLogDegreeEnd bucket < 12) then 512
    else 512 in
  let block_count := numberOfVertices bucket in
  if bool_decide (block_count <> 0) then
    launch_kernel block_per_vertex_worker_weightless block_count block_size
      (fun blockIdx threadIdx =>
         block_per_vertex_thread graph (vertexIds bucket) (numberOfVertices bucket)
           blockIdx threadIdx block_size) d
  else d.
End Workers.

End Opg.

(** * Inputs and predicates of the statements *)

Local Open Scope Z_scope.

(** ** Columns and graphs *)

(** A column over the whole of [l]. *)
Definition int_column (l : list Z) (t : gdf_dtype) : gdf_column :=
  gdf_column_view (Ints l) None (Z.of_nat (length l)) t.

Definition real_column (l : list Q) (t : gdf_dtype) : gdf_column :=
  gdf_column_view (Reals l) None (Z.of_nat (length l)) t.

(** A graph object with nothing attached. *)
Definition empty_graph : gdf_graph :=
  {| edgeList := None; adjList := None; transposedAdjList := None |}.

(** Some representation is attached to the graph object. *)
Definition has_representation (g : gdf_graph) : Prop :=
  edgeList g <> None \/ adjList g <> None \/ transposedAdjList g <> None.

(** The edge list 0->1, 1->2, and the graph [gdf_edge_list_view] makes of it. *)
Definition two_edges : gdf_edge_list :=
  {| src_indices := int_column [0; 1] GDF_INT32;
     dest_indices := int_column [1; 2] GDF_INT32;
     edge_data := None;
     ownership := 0 |}.

Definition graph_with_edges : gdf_graph :=
  (Cugraph.gdf_edge_list_view (int_column [0; 1] GDF_INT32)
     (int_column [1; 2] GDF_INT32) None empty_graph).2.

(** The edges 0->1, 0->2, 1->2 of the spec's conversion scenario. *)
Definition three_edges : gdf_edge_list :=
  {| src_indices := int_column [0; 0; 1] GDF_INT32;
     dest_indices := int_column [1; 2; 2] GDF_INT32;
     edge_data := None;
     ownership := 0 |}.

Definition graph_of_three_edges : gdf_graph :=
  {| edgeList := Some three_edges; adjList := None; transposedAdjList := None |}.

(** The cycle 0->1->2->3->0 handed over as an edge list. *)
Definition cycle4_edges : gdf_graph :=
  (Part005.gdf_edge_list_view (int_column [0; 1; 2; 3] GDF_INT32)
     (int_column [1; 2; 3; 0] GDF_INT32) None empty_graph).2.

(** The same cycle handed over in compressed form. *)
Definition cycle4_csr : gdf_graph :=
  (Part005.gdf_adj_list_view (int_column [0; 1; 2; 3; 4] GDF_INT32)
     (int_column [1; 2; 3; 0] GDF_INT32) None empty_graph).2.

(** A graph and two result columns of four cells for [gdf_bfs]. *)
Definition bfs_input (g : gdf_graph) : Part005.bfs_state :=
  {| Part005.bfs_graph := g;
     Part005.distances := int_column [0; 0; 0; 0] GDF_INT32;
     Part005.predecessors := int_column [0; 0; 0; 0] GDF_INT32 |}.

(** The edges 2->0, 0->1, 0->2, 1->2, and a rank column of three cells. *)
Definition small_web : gdf_graph :=
  (Part005.gdf_edge_list_view (int_column [2; 0; 0; 1] GDF_INT32)
     (int_column [0; 1; 2; 2] GDF_INT32) None empty_graph).2.

Definition pagerank_input : Part005.pagerank_state :=
  {| Part005.pr_graph := small_web;
     Part005.pr_column := Some (real_column [0%Q; 0%Q; 0%Q] GDF_FLOAT32) |}.

(** ** Renumbering *)

Definition supported_width (t : gdf_dtype) : Prop :=
  t = GDF_INT32 \/ t = GDF_INT64.

(** The caller's three descriptors before the call, for either copy. *)
Definition fresh_outputs : Cugraph.renumber_state :=
  {| Cugraph.src_renumbered := gdf_column_view Null None 0 GDF_INT32;
     Cugraph.dst_renumbered := gdf_column_view Null None 0 GDF_INT32;
     Cugraph.numbering_map := gdf_column_view Null None 0 GDF_INT32;
     Cugraph.work := [] |}.

Definition fresh_outputs_005 : Part005.renumber_state :=
  {| Part005.src_renumbered := None;
     Part005.dst_renumbered := None;
     Part005.numbering_map := None;
     Part005.work := [] |}.

(** The columns of the spec's renumbering scenario. *)
Definition raw_src : gdf_column := int_column [10; 10; 30; 40] GDF_INT32.

Definition raw_dst : gdf_column := int_column [30; 40; 10; 10] GDF_INT32.

(** The size of the dense range: how many distinct identifiers the two
    columns hold. *)
Definition distinct_ids (src dst : gdf_column) : Z :=
  Z.of_nat (length (sort_unique (column_ints src ++ column_ints dst))).

(** Two 32-bit columns of 2^30 identifiers each, 0 .. 2^30 - 1 and
    2^30 .. 2^31 - 1: together 2^31 distinct non-negative identifiers. *)
Definition wide_src : gdf_column :=
  {| data := Ints (seqZ 0 1073741824); valid := None; size := 1073741824;
     dtype := GDF_INT32; null_count := 0 |}.

Definition wide_dst : gdf_column :=
  {| data := Ints (seqZ 1073741824 1073741824); valid := None; size := 1073741824;
     dtype := GDF_INT32; null_count := 0 |}.

(** ** Conversion to compressed form *)


(** The adjacency list whose columns are the arrays the converter produces
    on the edge list with the source and the destination array exchanged:
    the offsets are its row offsets (one more than it counts vertices), the
    indices its column indices, and for a weighted edge list the edge data
    are its edge weights (one per edge); no column has a validity mask, the
    integer columns keep the dtype of the edge list and the weights the
    dtype of its edge data, and the graph owns the arrays. *)
Definition swapped_csr (el : gdf_edge_list) : gdf_adj_list :=
  let nnz := size (src_indices el) in
  let src := as_ints (data (src_indices el)) in
  let dst := as_ints (data (dest_indices el)) in
  let t := dtype (src_indices el) in
  match edge_data el with
  | Some ed =>
      let r := (ConvertCOOtoCSR_weighted dst src (as_reals (data ed)) nnz).2 in
      {| offsets := {| data := Ints (csrw_rowOffsets r); valid := None;
                       size := csrw_size r + 1; dtype := t; null_count := 0 |};
         indices := {| data := Ints (csrw_colIndices r); valid := None;
                       size := csrw_nnz r; dtype := t; null_count := 0 |};
         adj_edge_data :=
           Some {| data := Reals (edgeWeights r); valid := None;
                   size := csrw_nnz r; dtype := dtype ed; null_count := 0 |};
         adj_ownership := 1 |}
  | None =>
      let r := (ConvertCOOtoCSR dst src nnz).2 in
      {| offsets := {| data := Ints (rowOffsets r); valid := None;
                       size := csr_size r + 1; dtype := t; null_count := 0 |};
         indices := {| data := Ints (colIndices r); valid := None;
                       size := csr_nnz r; dtype := t; null_count := 0 |};
         adj_edge_data := None;
         adj_ownership := 1 |}
  end.

(** The edge list with every edge reversed. *)
Definition swap_edges (el : gdf_edge_list) : gdf_edge_list :=
  {| src_indices := dest_indices el;
     dest_indices := src_indices el;
     edge_data := edge_data el;
     ownership := ownership el |}.





(** ** Degree buckets *)

(** The CSR view of the edges 0->1, 0->2, 1->2. *)
Definition triangle_view : Opg.GraphCSRView :=
  {| Opg.g_offsets := [0; 2; 3; 3]; Opg.g_indices := [1; 2; 2];
     Opg.number_of_vertices := 3; Opg.number_of_edges := 3 |}.

(** An operator that records the edges it is applied to. *)
Definition record_edge (u v : Z) (seen : list (Z * Z)) : list (Z * Z) :=
  seen ++ [(u, v)].

(** A device that has run nothing yet. *)
Definition idle_device : Opg.device :=
  {| Opg.mem := @nil (Z * Z); Opg.launches := [] |}.

Definition empty_bucket : Opg.DegreeBucket :=
  {| Opg.vertexIds := []; Opg.numberOfVertices := 0; Opg.ceilLogDegreeEnd := 1 |}.

(** ** Columns seen through their descriptor *)

(** The descriptor [c] with another dtype tag. *)
Definition with_dtype (t : gdf_dtype) (c : gdf_column) : gdf_column :=
  {| data := data c; valid := valid c; size := size c; dtype := t;
     null_count := null_count c |}.

(** What a column descriptor says about its buffer. *)
Definition descriptor (c : gdf_column) : option (list bool) * Z * gdf_dtype * Z :=
  (valid c, size c, dtype c, null_count c).

(** The compressed form of the edges 0->1, 1->2 with one weight too few. *)
Definition path_offsets : gdf_column := int_column [0; 1; 2; 2] GDF_INT32.

Definition path_indices : gdf_column := int_column [1; 2] GDF_INT32.

Definition one_weight : gdf_column := real_column [1%Q] GDF_FLOAT32.

(** The same path with 64-bit vertex ids, as an edge list and in compressed
    form. *)
Definition wide_path_edges : gdf_graph :=
  (Cugraph.gdf_edge_list_view (int_column [0; 1] GDF_INT64)
     (int_column [1; 2] GDF_INT64) None empty_graph).2.

Definition wide_path_csr : gdf_graph :=
  (Cugraph.gdf_adj_list_view (int_column [0; 1; 2; 2] GDF_INT64)
     (int_column [1; 2] GDF_INT64) None empty_graph).2.

(** The path in compressed form with 32-bit ids. *)
Definition path_csr : gdf_graph :=
  (Cugraph.gdf_adj_list_view path_offsets path_indices None empty_graph).2.

(** ** Edges of a degree bucket *)

(** The edges of the vertex at position [i] of the bucket, as the pairs the
    operator is applied to, in the order of the index array. *)
Definition vertex_edges (graph : Opg.GraphCSRView) (vertex_ids : list Z) (i : Z)
    : list (Z * Z) :=
  let source := rd vertex_ids i in
  (fun e => (source, rd (Opg.g_indices graph) e)) <$>
    seqZ (rd (Opg.g_offsets graph) source)
         (rd (Opg.g_offsets graph) (source + 1) - rd (Opg.g_offsets graph) source).

(** The edges of the bucket: those of its first [numberOfVertices] vertex
    ids, one vertex after the other. *)
Definition bucket_edges (graph : Opg.GraphCSRView) (bucket : Opg.DegreeBucket)
    : list (Z * Z) :=
  seqZ 0 (Opg.numberOfVertices bucket) ≫= vertex_edges graph (Opg.vertexIds bucket).

(** The operator applied to a sequence of edges, one after the other. *)
Definition apply_ops {S : Type} (op : Z -> Z -> S -> S) (s : S) (es : list (Z * Z)) : S :=
  foldl (fun s e => op e.1 e.2 s) s es.

(** The edges one thread hands to the operator for the vertex at position
    [i]: it strides from [first] past the start of the vertex's range. *)
Definition thread_edges (graph : Opg.GraphCSRView) (vertex_ids : list Z)
    (i first stride : Z) : list (Z * Z) :=
  let source := rd vertex_ids i in
  (fun e => (source, rd (Opg.g_indices graph) e)) <$>
    Opg.strided (first + rd (Opg.g_offsets graph) source)
                (rd (Opg.g_offsets graph) (source + 1)) stride.

(** The two vertices of [triangle_view] that have edges. *)
Definition two_vertex_bucket : Opg.DegreeBucket :=
  {| Opg.vertexIds := [0; 1]; Opg.numberOfVertices := 2; Opg.ceilLogDegreeEnd := 1 |}.

(** * Properties *)

Local Open Scope Z_scope.

(** Unfold the control-flow combinators of a function body. *)
Ltac unfold_M :=
  unfold bind, GDF_REQUIRE, get, put, modify, return_, ret, call, deref, crash in *.

(** ** Graph views *)

(** C10: a graph object that already has a representation attached (edge
    list, adjacency list or transposed adjacency list) is refused by both
    [gdf_adj_list_view] and [gdf_edge_list_view] of cugraph.cu with
    GDF_INVALID_API_CALL, and is left as it was. *)
Theorem views_refuse_attached_graph (graph : gdf_graph)
    (c1 c2 : gdf_column) (ed : option gdf_column) :
  has_representation graph ->
  Cugraph.gdf_adj_list_view c1 c2 ed graph = (Return GDF_INVALID_API_CALL, graph) /\
  Cugraph.gdf_edge_list_view c1 c2 ed graph = (Return GDF_INVALID_API_CALL, graph).
Proof.
  intros H.
  destruct graph as [[e|] [a|] [t|]]; try (split; reflexivity).
  destruct H as [H | [H | H]]; simpl in H; congruence.
Qed.

Lemma views_refuse_attached_graph_witness :
  has_representation graph_with_edges /\
  Cugraph.gdf_adj_list_view (int_column [0; 1; 2; 2] GDF_INT32)
    (int_column [1; 2] GDF_INT32) None graph_with_edges
  = (Return GDF_INVALID_API_CALL, graph_with_edges).
Proof.
  assert (H : has_representation graph_with_edges) by (left; discriminate).
  split; [exact H|].
  exact (proj1 (views_refuse_attached_graph graph_with_edges
                  (int_column [0; 1; 2; 2] GDF_INT32)
                  (int_column [1; 2] GDF_INT32) None H)).
Defined.

(** ** Renumbering: argument checks *)

Lemma width_test (t : gdf_dtype) :
  ~ supported_width t ->
  bool_decide (t = GDF_INT32) || bool_decide (t = GDF_INT64) = false.
Proof.
  intros H. unfold supported_width in H.
  rewrite !bool_decide_eq_false_2; [reflexivity | tauto | tauto].
Qed.

(** C7: [gdf_renumber_vertices] (both copies) returns
    GDF_COLUMN_SIZE_MISMATCH whenever the two input arrays differ in length,
    and GDF_UNSUPPORTED_DTYPE whenever the lengths agree and the identifier
    type of either array is not one of the two supported widths; in both
    cases the outputs and the record of device work are untouched: nothing
    was allocated and the renumbering was not called. *)
Theorem gdf_renumber_vertices_rejects (src dst : gdf_column) :
  (size src <> size dst ->
   (forall st, Cugraph.gdf_renumber_vertices src dst st
               = (Return GDF_COLUMN_SIZE_MISMATCH, st)) /\
   (forall st, Part005.gdf_renumber_vertices src dst st
               = (Return GDF_COLUMN_SIZE_MISMATCH, st))) /\
  (size src = size dst ->
   ~ supported_width (dtype src) \/ ~ supported_width (dtype dst) ->
   (forall st, Cugraph.gdf_renumber_vertices src dst st
               = (Return GDF_UNSUPPORTED_DTYPE, st)) /\
   (forall st, Part005.gdf_renumber_vertices src dst st
               = (Return GDF_UNSUPPORTED_DTYPE, st))).
Proof.
  split.
  - intros Hsz.
    split; intros st;
      unfold Cugraph.gdf_renumber_vertices, Part005.gdf_renumber_vertices;
      unfold_M; rewrite (bool_decide_eq_false_2 _ Hsz); reflexivity.
  - intros Hsz Hty.
    assert (Hchk :
      bool_decide (dtype src = dtype dst) = false \/
      bool_decide (dtype src = GDF_INT32) || bool_decide (dtype src = GDF_INT64) = false).
    { destruct (decide (dtype src = dtype dst)) as [Heq | Hne].
      - right. apply width_test. destruct Hty as [H | H]; [exact H|].
        rewrite Heq. exact H.
      - left. apply bool_decide_eq_false_2. exact Hne. }
    split; intros st;
      unfold Cugraph.gdf_renumber_vertices, Part005.gdf_renumber_vertices;
      unfold_M; rewrite (bool_decide_eq_true_2 _ Hsz);
      destruct Hchk as [-> | Hw]; try reflexivity;
      destruct (bool_decide (dtype src = dtype dst)); try reflexivity;
      rewrite Hw; reflexivity.
Qed.

Lemma gdf_renumber_vertices_rejects_witness :
  Cugraph.gdf_renumber_vertices (int_column [1; 2; 3] GDF_INT32)
    (int_column [4; 5] GDF_INT32) fresh_outputs
  = (Return GDF_COLUMN_SIZE_MISMATCH, fresh_outputs) /\
  Part005.gdf_renumber_vertices (int_column [1; 2] GDF_FLOAT32)
    (int_column [4; 5] GDF_FLOAT32) fresh_outputs_005
  = (Return GDF_UNSUPPORTED_DTYPE, fresh_outputs_005).
Proof.
  split.
  - apply (proj1 (gdf_renumber_vertices_rejects
                    (int_column [1; 2; 3] GDF_INT32) (int_column [4; 5] GDF_INT32))).
    simpl. lia.
  - apply (proj2 (gdf_renumber_vertices_rejects
                    (int_column [1; 2] GDF_FLOAT32) (int_column [4; 5] GDF_FLOAT32))).
    + reflexivity.
    + left. unfold supported_width. simpl. intros [H | H]; discriminate H.
Defined.

(** ** Degree-bucket workers *)

(** C9: on a bucket with no vertices, [small_vertex_worker],
    [medium_vertex_worker] and [large_vertex_worker] launch no kernel and
    leave the device as it was, whatever the graph and the operator. *)
Theorem empty_bucket_launches_nothing {S : Type} (op : Z -> Z -> S -> S)
    (graph : Opg.GraphCSRView) (bucket : Opg.DegreeBucket) (d : Opg.device) :
  Opg.numberOfVertices bucket = 0 ->
  Opg.small_vertex_worker op graph bucket d = d /\
  Opg.medium_vertex_worker op graph bucket d = d /\
  Opg.large_vertex_worker op graph bucket d = d.
Proof.
  intros H.
  unfold Opg.small_vertex_worker, Opg.medium_vertex_worker, Opg.large_vertex_worker.
  rewrite H. repeat split; reflexivity.
Qed.

Lemma empty_bucket_launches_nothing_witness :
  Opg.small_vertex_worker record_edge triangle_view empty_bucket idle_device = idle_device /\
  Opg.medium_vertex_worker record_edge triangle_view empty_bucket idle_device = idle_device /\
  Opg.large_vertex_worker record_edge triangle_view empty_bucket idle_device = idle_device.
Proof.
  apply (empty_bucket_launches_nothing record_edge triangle_view empty_bucket idle_device).
  reflexivity.
Defined.

(** A bucket that is not empty does launch: the two vertices with edges are
    handed to the small worker, one block each. *)
Example small_worker_on_two_vertices :
  Opg.small_vertex_worker record_edge triangle_view
    {| Opg.vertexIds := [0; 1]; Opg.numberOfVertices := 2; Opg.ceilLogDegreeEnd := 1 |}
    idle_device
  = {| Opg.mem := [(0, 1); (0, 2); (1, 2)];
       Opg.launches := [ {| Opg.l_kernel := Opg.block_per_vertex_worker_weightless;
                            Opg.l_grid := 2; Opg.l_block := 32 |} ] |}.
Proof. vm_compute. reflexivity. Qed.

(** ** Transposed adjacency list *)



#[local] Opaque HT_matrix_csc_coo pagerank swapped_csr.


#[local] Transparent HT_matrix_csc_coo pagerank swapped_csr.



(** On that edge list the transposed offsets and indices are those of the
    edges 1->0, 2->1. *)
Example transposed_of_two_edges :
  swapped_csr two_edges
  = {| offsets := gdf_column_view (Ints [0; 0; 1; 2]) None 4 GDF_INT32;
       indices := gdf_column_view (Ints [0; 1]) None 2 GDF_INT32;
       adj_edge_data := None;
       adj_ownership := 1 |}.
Proof. vm_compute. reflexivity. Qed.

(** With weights: the edges 0->2 (weight 1/2) and 0->1 (weight 1/4) give the
    transposed list of 1<-0 and 2<-0, each weight with its edge. *)
Example transposed_of_weighted_edges :
  swapped_csr {| src_indices := int_column [0; 0] GDF_INT32;
                 dest_indices := int_column [2; 1] GDF_INT32;
                 edge_data := Some (real_column [1 # 2; 1 # 4]%Q GDF_FLOAT32);
                 ownership := 0 |}
  = {| offsets := gdf_column_view (Ints [0; 0; 1; 2]) None 4 GDF_INT32;
       indices := gdf_column_view (Ints [0; 0]) None 2 GDF_INT32;
       adj_edge_data :=
         Some (gdf_column_view (Reals [1 # 4; 1 # 2]%Q) None 2 GDF_FLOAT32);
       adj_ownership := 1 |}.
Proof. vm_compute. reflexivity. Qed.

(** The forward conversion of the reversed edge list gives the same arrays:
    [gdf_add_adj_list] on a graph that holds only [swap_edges el] attaches
    [swapped_csr el]. *)
Lemma swapped_csr_is_adjacency_of_swapped_edges (el : gdf_edge_list) (g' : gdf_graph) :
  dtype (src_indices el) = dtype (dest_indices el) ->
  size (src_indices el) = size (dest_indices el) ->
  Cugraph.gdf_add_adj_list
    {| edgeList := Some (swap_edges el); adjList := None; transposedAdjList := None |}
  = (Return GDF_SUCCESS, g') ->
  adjList g' = Some (swapped_csr el).
Proof.
  destruct el as [[sd sv ssz st sn] [dd dv dsz dt dn] ed ow]. simpl.
  intros -> -> Hrun.
  destruct ed as [[ed ev esz et en]|]; destruct dt; try destruct et;
    try discriminate Hrun; injection Hrun as <-; reflexivity.
Qed.

(** ** Breadth-first search on the four-cycle *)

(** C5: on the unweighted directed cycle 0->1->2->3->0, given as an edge list
    or in compressed form, [gdf_bfs] from vertex 0 returns GDF_SUCCESS and
    leaves the distances [0,1,2,3] and the predecessors [-1,0,1,2] in the
    two output columns. *)
Theorem gdf_bfs_four_cycle :
  (Part005.gdf_bfs 0 true (bfs_input cycle4_edges)).1 = Return GDF_SUCCESS /\
  column_ints (Part005.distances (Part005.gdf_bfs 0 true (bfs_input cycle4_edges)).2)
    = [0; 1; 2; 3] /\
  column_ints (Part005.predecessors (Part005.gdf_bfs 0 true (bfs_input cycle4_edges)).2)
    = [-1; 0; 1; 2] /\
  (Part005.gdf_bfs 0 true (bfs_input cycle4_csr)).1 = Return GDF_SUCCESS /\
  column_ints (Part005.distances (Part005.gdf_bfs 0 true (bfs_input cycle4_csr)).2)
    = [0; 1; 2; 3] /\
  column_ints (Part005.predecessors (Part005.gdf_bfs 0 true (bfs_input cycle4_csr)).2)
    = [-1; 0; 1; 2].
Proof. vm_compute. repeat split. Qed.

(** ** Pagerank at the iteration cap *)

(** From the uniform start one sweep moves the ranks by more than 1/10000, so
    with a cap of one iteration the power iteration reports status 1. *)
Example small_web_hits_the_cap :
  let csc_offsets := [0; 1; 2; 4] in
  let csc_indices := [2; 0; 0; 1] in
  let ht := HT_matrix_csc_coo 3 4 csc_offsets csc_indices in
  (pagerank 3 4 csc_offsets csc_indices ht.1 (85 # 100) ht.2 false (1 # 10000) 1
     [0%Q; 0%Q; 0%Q]).1 = 1.
Proof. vm_compute. reflexivity. Qed.

(** C1 (what the code does at the cap): on [small_web], a cap of one
    iteration and tolerance 1/10000, the power iteration stops at the cap;
    [gdf_pagerank] then returns GDF_CUDA_ERROR, the code of its hard
    failures, and the caller's column still holds what it held before the
    call: the last iterate is not copied out. *)
Theorem gdf_pagerank_at_cap_returns_error :
  (Part005.gdf_pagerank (85 # 100) (1 # 10000) 1 false pagerank_input).1
    = Return GDF_CUDA_ERROR /\
  Part005.pr_column
    (Part005.gdf_pagerank (85 # 100) (1 # 10000) 1 false pagerank_input).2
    = Part005.pr_column pagerank_input.
Proof. vm_compute. split; reflexivity. Qed.

(** With enough iterations allowed the same call succeeds and writes ranks. *)
Example gdf_pagerank_converged_copies :
  (Part005.gdf_pagerank (85 # 100) (1 # 2) 3 false pagerank_input).1
    = Return GDF_SUCCESS /\
  Part005.pr_column
    (Part005.gdf_pagerank (85 # 100) (1 # 2) 3 false pagerank_input).2
    <> Part005.pr_column pagerank_input.
Proof. vm_compute. split; [reflexivity | discriminate]. Qed.

Lemma on_graph_keeps_column {A} (m : M gdf_graph A) (st : Part005.pagerank_state) :
  Part005.pr_column (Part005.on_graph m st).2 = Part005.pr_column st.
Proof. unfold Part005.on_graph. destruct (m (Part005.pr_graph st)). reflexivity. Qed.

#[local] Opaque HT_matrix_csc_coo pagerank Part005.gdf_add_transpose.

(** The part of [gdf_pagerank_impl] after the transposed list is in place. *)
Ltac pagerank_tail :=
  match goal with
  | |- context [transposedAdjList ?g] =>
      destruct (transposedAdjList g) as [?t|]; simpl; [|reflexivity]
  end;
  destruct (HT_matrix_csc_coo _ _ _ _) as [?d_val ?d_leaf]; simpl;
  try match goal with
  | |- context [is_nullptr ?d] => destruct (is_nullptr d); simpl; [reflexivity|]
  end;
  destruct (pagerank _ _ _ _ _ _ _ _ _ _ _) as [?status ?d_pr];
  repeat match goal with
  | |- context [bool_decide ?P] => destruct (bool_decide P); simpl
  end;
  first [reflexivity | intros ?Hne; contradiction].

(** In general: unless [gdf_pagerank_impl] returns GDF_SUCCESS, the caller's
    column is as it was before the call. *)
Lemma gdf_pagerank_impl_error_keeps_column (alpha tolerance : Q) (max_iter : Z)
    (has_guess : bool) (st : Part005.pagerank_state) :
  (Part005.gdf_pagerank_impl alpha tolerance max_iter has_guess st).1
    <> Return GDF_SUCCESS ->
  Part005.pr_column (Part005.gdf_pagerank_impl alpha tolerance max_iter has_guess st).2
    = Part005.pr_column st.
Proof.
  unfold Part005.gdf_pagerank_impl. unfold_M.
  destruct st as [graph pr]. simpl.
  destruct (edgeList graph) as [el|]; simpl; [|reflexivity].
  repeat match goal with
  | |- context [bool_decide ?P] => destruct (bool_decide P); simpl; [|reflexivity]
  end.
  destruct pr as [pr|]; simpl; [|reflexivity].
  destruct (is_nullptr (data pr)) eqn:Hnull; simpl; [reflexivity|].
  repeat match goal with
  | |- context [bool_decide (?x = 0)] =>
      destruct (bool_decide (x = 0)); simpl; [|reflexivity]
  | |- context [bool_decide (?x > 0)] =>
      destruct (bool_decide (x > 0)); simpl; [|reflexivity]
  end.
  destruct has_guess; simpl; rewrite ?Hnull; simpl;
    (destruct (isnull (transposedAdjList graph)); simpl;
     [ unfold Part005.on_graph; simpl;
       destruct (Part005.gdf_add_transpose graph) as [[x | e |] g1]; simpl;
       first [reflexivity | pagerank_tail]
     | pagerank_tail ]).
Qed.

#[local] Transparent HT_matrix_csc_coo pagerank Part005.gdf_add_transpose.

(** ** Renumbering: the map and the dense ids *)

Lemma elem_of_insert_unique (x y : Z) (l : list Z) :
  y ∈ insert_unique x l <-> y = x \/ y ∈ l.
Proof.
  induction l as [|z l IH]; simpl.
  - rewrite list_elem_of_singleton, elem_of_nil. tauto.
  - repeat case_bool_decide; subst; rewrite ?elem_of_cons, ?IH; tauto.
Qed.

Lemma elem_of_sort_unique (y : Z) (l : list Z) :
  y ∈ sort_unique l <-> y ∈ l.
Proof.
  unfold sort_unique. induction l as [|x l IH]; simpl.
  - reflexivity.
  - rewrite elem_of_insert_unique, elem_of_cons, IH. reflexivity.
Qed.

Lemma insert_unique_sorted (x : Z) (l : list Z) :
  StronglySorted Z.lt l -> StronglySorted Z.lt (insert_unique x l).
Proof.
  induction l as [|y l IH]; intros Hs; simpl.
  - repeat constructor.
  - inversion Hs as [|? ? Hl Hy]; subst.
    repeat case_bool_decide.
    + constructor; [exact Hs|]. constructor; [assumption|].
      eapply Forall_impl; [exact Hy|]. simpl. intros. lia.
    + exact Hs.
    + constructor; [apply IH; exact Hl|].
      apply Forall_forall. intros z Hz.
      apply elem_of_insert_unique in Hz as [-> | Hz]; [lia|].
      rewrite Forall_forall in Hy. apply Hy. exact Hz.
Qed.

Lemma sort_unique_sorted (l : list Z) : StronglySorted Z.lt (sort_unique l).
Proof.
  unfold sort_unique. induction l as [|x l IH]; simpl.
  - constructor.
  - apply insert_unique_sorted. exact IH.
Qed.

Lemma index_of_range (x : Z) (l : list Z) :
  x ∈ l -> 0 <= index_of x l < Z.of_nat (length l).
Proof.
  induction l as [|y l IH]; intros Hx.
  - inversion Hx.
  - simpl. case_bool_decide; [lia|].
    apply elem_of_cons in Hx as [-> | Hx]; [congruence|].
    specialize (IH Hx). lia.
Qed.

Lemma index_of_nonneg (x : Z) (l : list Z) : 0 <= index_of x l.
Proof. induction l as [|y l IH]; simpl; [lia|]. case_bool_decide; lia. Qed.

(** Reading the map at the position of [x] gives back [x]. *)
Lemma rd_index_of (x : Z) (l : list Z) : x ∈ l -> rd l (index_of x l) = x.
Proof.
  unfold rd. intros Hx.
  rewrite bool_decide_eq_true_2 by apply index_of_nonneg.
  induction l as [|y l IH].
  - inversion Hx.
  - simpl. case_bool_decide as Hxy; [subst; reflexivity|].
    apply elem_of_cons in Hx as [-> | Hx]; [congruence|].
    pose proof (index_of_nonneg x l).
    replace (Z.to_nat (1 + index_of x l)) with (S (Z.to_nat (index_of x l))) by lia.
    simpl. apply IH. exact Hx.
Qed.

(** In a strictly increasing list, positions follow the order of the values. *)
Lemma index_of_monotone (x y : Z) (l : list Z) :
  StronglySorted Z.lt l -> x ∈ l -> y ∈ l -> x < y ->
  index_of x l < index_of y l.
Proof.
  induction l as [|z l IH]; intros Hs Hx Hy Hlt.
  - inversion Hx.
  - inversion Hs as [|? ? Hl Hz]; subst. rewrite Forall_forall in Hz.
    simpl. repeat case_bool_decide; subst.
    + lia.
    + pose proof (index_of_nonneg y l). lia.
    + apply elem_of_cons in Hx as [-> | Hx]; [congruence|].
      specialize (Hz _ Hx). lia.
    + apply elem_of_cons in Hx as [-> | Hx]; [congruence|].
      apply elem_of_cons in Hy as [-> | Hy]; [congruence|].
      specialize (IH Hl Hx Hy Hlt). lia.
Qed.

Lemma map_rd_index_of (l numbering : list Z) :
  (forall x, x ∈ l -> x ∈ numbering) ->
  rd numbering <$> ((fun x => index_of x numbering) <$> l) = l.
Proof.
  intros Hin. induction l as [|x l IH]; simpl; [reflexivity|].
  rewrite rd_index_of by (apply Hin; left).
  f_equal. apply IH. intros y Hy. apply Hin. right. exact Hy.
Qed.

(** ** Renumbering: what a call leaves behind *)

Lemma to_int32_small (x : Z) : - 2 ^ 31 <= x < 2 ^ 31 -> to_int32 x = x.
Proof. intros H. unfold to_int32. rewrite Z.mod_small by lia. lia. Qed.

Lemma index_of_le_length (x : Z) (l : list Z) :
  index_of x l <= Z.of_nat (length l).
Proof.
  induction l as [|y l IH]; simpl; [lia|].
  case_bool_decide; lia.
Qed.

(** Dense ids of a range of at most 2^31 - 1 identifiers are stored in their
    32-bit cells unchanged. *)
Lemma dense_ids_fit (numbering l : list Z) :
  Z.of_nat (length numbering) <= 0x7fffffff ->
  (fun x => to_int32 (index_of x numbering)) <$> l
  = (fun x => index_of x numbering) <$> l.
Proof.
  intros Hlen. apply Forall_fmap_ext_1, Forall_forall. intros x _.
  apply to_int32_small.
  pose proof (index_of_nonneg x numbering).
  pose proof (index_of_le_length x numbering). lia.
Qed.

Lemma new_size_distinct_ids (src dst : gdf_column) :
  size src = size dst ->
  new_size (renumber_vertices (size src) (as_ints (data src)) (as_ints (data dst)))
  = distinct_ids src dst.
Proof. intros H. unfold distinct_ids, column_ints. rewrite <- H. reflexivity. Qed.

(** The helper's results in terms of the two input columns. *)
Lemma renumber_vertices_columns (src dst : gdf_column) :
  size src = size dst ->
  let r := renumber_vertices (size src) (as_ints (data src)) (as_ints (data dst)) in
  let numbering := sort_unique (column_ints src ++ column_ints dst) in
  ren_src r = (fun x => to_int32 (index_of x numbering)) <$> column_ints src /\
  ren_dst r = (fun x => to_int32 (index_of x numbering)) <$> column_ints dst /\
  ren_map r = numbering /\
  new_size r = Z.of_nat (length numbering).
Proof. intros H. unfold column_ints. rewrite <- H. repeat split. Qed.

#[local] Opaque renumber_vertices.

(** What a successful call of cugraph.cu's [gdf_renumber_vertices] leaves in
    the three output descriptors, whatever the helper hands back: the size
    of the numbering map is the helper's count narrowed to 32 bits, and the
    count has been compared with 0x7fffffff unless the input is 32 bits
    wide. *)
Lemma gdf_renumber_vertices_success (src dst : gdf_column)
    (st st' : Cugraph.renumber_state) :
  Cugraph.gdf_renumber_vertices src dst st = (Return GDF_SUCCESS, st') ->
  let r := renumber_vertices (size src) (as_ints (data src)) (as_ints (data dst)) in
  size src = size dst /\
  data (Cugraph.src_renumbered st') = Ints (ren_src r) /\
  size (Cugraph.src_renumbered st') = size src /\
  data (Cugraph.dst_renumbered st') = Ints (ren_dst r) /\
  size (Cugraph.dst_renumbered st') = size dst /\
  data (Cugraph.numbering_map st') = Ints (ren_map r) /\
  size (Cugraph.numbering_map st') = to_int32 (new_size r) /\
  (dtype src = GDF_INT32 \/ new_size r <= 0x7fffffff).
Proof.
  intros Hrun. unfold Cugraph.gdf_renumber_vertices in Hrun. unfold_M.
  destruct (bool_decide (size src = size dst)) eqn:Hsz; simpl in Hrun;
    [|discriminate Hrun].
  apply bool_decide_eq_true_1 in Hsz.
  repeat match type of Hrun with
  | context [bool_decide ?P] =>
      let E := fresh "E" in
      destruct (bool_decide P) eqn:E; simpl in Hrun; try discriminate Hrun
  end.
  all: try (match goal with
            | E : bool_decide (_ <> _) = true |- _ =>
                apply bool_decide_eq_true_1 in E; congruence
            end).
  all: injection Hrun as <-; simpl; repeat split; try assumption.
  all: match goal with
       | E : bool_decide (_ = GDF_INT32) = true |- _ =>
           left; exact (bool_decide_eq_true_1 _ E)
       | E : bool_decide (_ > _) = false |- _ =>
           right; apply bool_decide_eq_false_1 in E; lia
       end.
Qed.

#[local] Transparent renumber_vertices.

Lemma column_ints_dense (l : list Z) (n : Z) (c : gdf_column) :
  data c = Ints l -> size c = n -> (length l <= Z.to_nat n)%nat ->
  column_ints c = l.
Proof.
  intros Hd Hs Hl. unfold column_ints. rewrite Hd, Hs. simpl.
  apply take_ge. exact Hl.
Qed.

(** The three columns after a successful call whose dense range fits 32
    bits (on 64-bit input the call has tested it), in terms of the sorted
    list of distinct identifiers. *)
Lemma gdf_renumber_vertices_columns (src dst : gdf_column)
    (st st' : Cugraph.renumber_state) :
  Cugraph.gdf_renumber_vertices src dst st = (Return GDF_SUCCESS, st') ->
  (dtype src = GDF_INT32 -> distinct_ids src dst <= 0x7fffffff) ->
  let numbering := sort_unique (column_ints src ++ column_ints dst) in
  size (Cugraph.numbering_map st') = Z.of_nat (length numbering) /\
  column_ints (Cugraph.numbering_map st') = numbering /\
  column_ints (Cugraph.src_renumbered st')
    = (fun x => index_of x numbering) <$> column_ints src /\
  column_ints (Cugraph.dst_renumbered st')
    = (fun x => index_of x numbering) <$> column_ints dst.
Proof.
  intros Hrun Hbound.
  destruct (gdf_renumber_vertices_success src dst st st' Hrun)
    as (Hsz & Hsd & Hss & Hdd & Hds & Hmd & Hms & Hfit).
  destruct (renumber_vertices_columns src dst Hsz) as (Hrs & Hrd & Hrm & Hrn).
  cbv zeta in Hsd, Hdd, Hmd, Hms, Hfit, Hrs, Hrd, Hrm, Hrn |- *.
  rewrite (new_size_distinct_ids src dst Hsz) in Hfit.
  rewrite Hrs in Hsd. rewrite Hrd in Hdd. rewrite Hrm in Hmd. rewrite Hrn in Hms.
  assert (Hlen : distinct_ids src dst <= 0x7fffffff)
    by (destruct Hfit as [H32 | Hle]; [exact (Hbound H32) | exact Hle]).
  unfold distinct_ids in Hlen.
  set (nm := sort_unique (column_ints src ++ column_ints dst)) in *.
  rewrite dense_ids_fit in Hsd, Hdd by exact Hlen.
  rewrite to_int32_small in Hms by lia.
  split; [exact Hms|].
  split; [apply (column_ints_dense _ _ _ Hmd Hms); lia|].
  split.
  - apply (column_ints_dense _ _ _ Hsd Hss).
    rewrite length_fmap. unfold column_ints. rewrite length_take. lia.
  - apply (column_ints_dense _ _ _ Hdd Hds).
    rewrite length_fmap. unfold column_ints. rewrite length_take. lia.
Qed.

(** C2: after a successful [gdf_renumber_vertices] (cugraph.cu) on columns
    whose dense range fits 32 bits (at most 2^31 - 1 distinct identifiers;
    on 64-bit input the call has tested this itself, so the bound is only
    asked of 32-bit input), every dense id written lies in the range of the
    numbering map, and reading the map at the dense ids of the source and of
    the destination column gives back the original identifiers, position by
    position: the original (source, destination) pairs are reproduced
    exactly. *)
Theorem renumbering_round_trip (src dst : gdf_column)
    (st st' : Cugraph.renumber_state) :
  Cugraph.gdf_renumber_vertices src dst st = (Return GDF_SUCCESS, st') ->
  (dtype src = GDF_INT32 -> distinct_ids src dst <= 0x7fffffff) ->
  let numbering := column_ints (Cugraph.numbering_map st') in
  let src' := column_ints (Cugraph.src_renumbered st') in
  let dst' := column_ints (Cugraph.dst_renumbered st') in
  Forall (fun d => 0 <= d < size (Cugraph.numbering_map st')) (src' ++ dst') /\
  rd numbering <$> src' = column_ints src /\
  rd numbering <$> dst' = column_ints dst /\
  zip (rd numbering <$> src') (rd numbering <$> dst')
    = zip (column_ints src) (column_ints dst).
Proof.
  intros Hrun Hbound.
  destruct (gdf_renumber_vertices_columns src dst st st' Hrun Hbound)
    as (Hms & Hnum & Hs' & Hd').
  set (s := column_ints src) in *. set (d := column_ints dst) in *.
  set (nm := sort_unique (s ++ d)) in *.
  assert (Hin : forall x, x ∈ s ++ d -> x ∈ nm).
  { intros x Hx. subst nm. apply elem_of_sort_unique. exact Hx. }
  assert (Hrs : rd nm <$> ((fun x => index_of x nm) <$> s) = s).
  { apply map_rd_index_of. intros x Hx. apply Hin, elem_of_app. left. exact Hx. }
  assert (Hrd : rd nm <$> ((fun x => index_of x nm) <$> d) = d).
  { apply map_rd_index_of. intros x Hx. apply Hin, elem_of_app. right. exact Hx. }
  simpl. rewrite Hnum, Hs', Hd', Hrs, Hrd. repeat split.
  rewrite Hms, <- fmap_app. apply Forall_fmap, Forall_forall.
  intros x Hx. simpl. apply index_of_range, Hin. exact Hx.
Qed.

Lemma renumbering_round_trip_witness :
  let st' := (Cugraph.gdf_renumber_vertices raw_src raw_dst fresh_outputs).2 in
  rd (column_ints (Cugraph.numbering_map st')) <$> column_ints (Cugraph.src_renumbered st')
    = [10; 10; 30; 40] /\
  rd (column_ints (Cugraph.numbering_map st')) <$> column_ints (Cugraph.dst_renumbered st')
    = [30; 40; 10; 10].
Proof.
  assert (Hbound : dtype raw_src = GDF_INT32 -> distinct_ids raw_src raw_dst <= 0x7fffffff)
    by (intros _; vm_compute; discriminate).
  pose proof (renumbering_round_trip raw_src raw_dst fresh_outputs
                (Cugraph.gdf_renumber_vertices raw_src raw_dst fresh_outputs).2
                eq_refl Hbound) as H.
  simpl. split; [exact (proj1 (proj2 H)) | exact (proj1 (proj2 (proj2 H)))].
Defined.

(** C4: whenever [gdf_renumber_vertices] (cugraph.cu) succeeds on columns
    whose dense range fits 32 bits (at most 2^31 - 1 distinct identifiers;
    on 64-bit input the call has tested this itself), the numbering map is
    strictly increasing, holds exactly the identifiers of the two input
    columns and has as many rows as there are distinct identifiers, the
    dense id written for an identifier is its position in the map, so dense
    ids follow the order of the original identifiers; and the outputs of a
    successful call never depend on what the output descriptors held
    before.  On the source ids [10,10,30,40] and destination ids
    [30,40,10,10] the map is [10,30,40] (size 3), i.e. 10->0, 30->1,
    40->2. *)
Theorem renumbering_follows_sorted_order :
  (forall (src dst : gdf_column) (st st' : Cugraph.renumber_state),
     Cugraph.gdf_renumber_vertices src dst st = (Return GDF_SUCCESS, st') ->
     (forall st0 st0',
        Cugraph.gdf_renumber_vertices src dst st0 = (Return GDF_SUCCESS, st0') ->
        Cugraph.src_renumbered st0' = Cugraph.src_renumbered st' /\
        Cugraph.dst_renumbered st0' = Cugraph.dst_renumbered st' /\
        Cugraph.numbering_map st0' = Cugraph.numbering_map st') /\
     ((dtype src = GDF_INT32 -> distinct_ids src dst <= 0x7fffffff) ->
      let numbering := column_ints (Cugraph.numbering_map st') in
      size (Cugraph.numbering_map st') = distinct_ids src dst /\
      StronglySorted Z.lt numbering /\
      (forall x, x ∈ numbering <-> x ∈ column_ints src \/ x ∈ column_ints dst) /\
      column_ints (Cugraph.src_renumbered st')
        = (fun x => index_of x numbering) <$> column_ints src /\
      column_ints (Cugraph.dst_renumbered st')
        = (fun x => index_of x numbering) <$> column_ints dst /\
      (forall x y, x ∈ numbering -> y ∈ numbering -> x < y ->
                   index_of x numbering < index_of y numbering))) /\
  (let run := Cugraph.gdf_renumber_vertices raw_src raw_dst fresh_outputs in
   run.1 = Return GDF_SUCCESS /\
   size (Cugraph.numbering_map run.2) = 3 /\
   column_ints (Cugraph.numbering_map run.2) = [10; 30; 40] /\
   column_ints (Cugraph.src_renumbered run.2) = [0; 0; 1; 2] /\
   column_ints (Cugraph.dst_renumbered run.2) = [1; 2; 0; 0]).
Proof.
  split; [|vm_compute; repeat split].
  intros src dst st st' Hrun. split.
  - intros st0 st0' Hrun0.
    unfold Cugraph.gdf_renumber_vertices in Hrun, Hrun0. unfold_M.
    repeat match type of Hrun with
    | context [bool_decide ?P] =>
        destruct (bool_decide P); simpl in Hrun, Hrun0; try discriminate Hrun
    end; injection Hrun as <-; injection Hrun0 as <-; repeat split.
  - intros Hbound.
    destruct (gdf_renumber_vertices_columns src dst st st' Hrun Hbound)
      as (Hms & Hnum & Hs' & Hd').
    simpl. rewrite Hnum.
    split; [exact Hms|].
    split; [apply sort_unique_sorted|].
    split; [intros x; rewrite elem_of_sort_unique, elem_of_app; reflexivity|].
    split; [exact Hs'|].
    split; [exact Hd'|].
    intros x y. apply index_of_monotone, sort_unique_sorted.
Qed.

Lemma renumbering_follows_sorted_order_witness :
  StronglySorted Z.lt
    (column_ints (Cugraph.numbering_map
       (Cugraph.gdf_renumber_vertices raw_src raw_dst fresh_outputs).2)).
Proof.
  assert (Hbound : dtype raw_src = GDF_INT32 -> distinct_ids raw_src raw_dst <= 0x7fffffff)
    by (intros _; vm_compute; discriminate).
  exact (proj1 (proj2 (proj2 (proj1 renumbering_follows_sorted_order
                  raw_src raw_dst fresh_outputs
                  (Cugraph.gdf_renumber_vertices raw_src raw_dst fresh_outputs).2
                  eq_refl) Hbound))).
Defined.

(** ** Renumbering: the 32-bit ceiling *)

Lemma length_insert_unique_fresh (x : Z) (l : list Z) :
  x ∉ l -> length (insert_unique x l) = S (length l).
Proof.
  induction l as [|y l IH]; intros Hx; simpl; [reflexivity|].
  apply not_elem_of_cons in Hx as [Hxy Hx].
  repeat case_bool_decide; simpl; [reflexivity | congruence |].
  rewrite IH by exact Hx. reflexivity.
Qed.

(** A list without repetitions keeps its length. *)
Lemma length_sort_unique_NoDup (l : list Z) :
  NoDup l -> length (sort_unique l) = length l.
Proof.
  unfold sort_unique. induction 1 as [|x l Hx Hl IH]; simpl; [reflexivity|].
  rewrite length_insert_unique_fresh, IH; [reflexivity|].
  fold (sort_unique l). rewrite elem_of_sort_unique. exact Hx.
Qed.

Lemma distinct_ids_wide : distinct_ids wide_src wide_dst = 2147483648.
Proof.
  unfold distinct_ids, column_ints, wide_src, wide_dst.
  cbv beta iota delta [data size as_ints].
  rewrite !take_ge by (rewrite length_seqZ; apply Nat.le_refl).
  change (seqZ 1073741824 1073741824) with (seqZ (0 + 1073741824) 1073741824).
  rewrite <- seqZ_app by lia.
  rewrite length_sort_unique_NoDup by apply NoDup_seqZ.
  rewrite length_seqZ. lia.
Qed.

#[local] Opaque renumber_vertices.

(** C6: the ceiling of 2^31 - 1 distinct identifiers is tested on 64-bit
    input only.  For two columns that pass the argument checks and any
    result of the helper with GDF_SUCCESS: on 64-bit input a count of more
    than 2^31 - 1 distinct identifiers makes [gdf_renumber_vertices] (both
    copies) return GDF_COLUMN_SIZE_TOO_BIG; on 32-bit input the count is
    never tested: the call returns GDF_SUCCESS and the size of the numbering
    map is the count narrowed to 32 bits, whatever the count is. *)
Theorem renumbering_ceiling_is_not_checked_on_32bit_path (src dst : gdf_column) :
  size src = size dst -> dtype src = dtype dst -> size src > 0 ->
  let r := renumber_vertices (size src) (as_ints (data src)) (as_ints (data dst)) in
  ren_err r = GDF_SUCCESS ->
  (dtype src = GDF_INT64 -> new_size r > 0x7fffffff ->
   (forall st, (Cugraph.gdf_renumber_vertices src dst st).1
               = Return GDF_COLUMN_SIZE_TOO_BIG) /\
   (forall st, (Part005.gdf_renumber_vertices src dst st).1
               = Return GDF_COLUMN_SIZE_TOO_BIG)) /\
  (dtype src = GDF_INT32 ->
   (forall st, let run := Cugraph.gdf_renumber_vertices src dst st in
               run.1 = Return GDF_SUCCESS /\
               size (Cugraph.numbering_map run.2) = to_int32 (new_size r)) /\
   (forall st, let run := Part005.gdf_renumber_vertices src dst st in
               run.1 = Return GDF_SUCCESS /\
               size <$> Part005.numbering_map run.2 = Some (to_int32 (new_size r)))).
Proof.
  intros Hsz Hty Hpos r Herr.
  pose proof (bool_decide_eq_true_2 _ Hsz) as Hsz'.
  pose proof (bool_decide_eq_true_2 _ Hty) as Hty'.
  pose proof (bool_decide_eq_true_2 _ Hpos) as Hpos'.
  assert (Herr' : bool_decide (ren_err r <> GDF_SUCCESS) = false)
    by (apply bool_decide_eq_false_2; intros H; apply H; exact Herr).
  subst r.
  split.
  - intros H64 Hbig.
    pose proof (bool_decide_eq_true_2 _ Hbig) as Hbig'.
    split; intros st;
      unfold Cugraph.gdf_renumber_vertices, Part005.gdf_renumber_vertices;
      unfold_M; rewrite Hsz', Hty', Hpos', H64; simpl;
      rewrite Herr', Hbig'; reflexivity.
  - intros H32.
    split; intros st;
      unfold Cugraph.gdf_renumber_vertices, Part005.gdf_renumber_vertices;
      unfold_M; rewrite Hsz', Hty', Hpos', H32; simpl;
      rewrite Herr'; split; reflexivity.
Qed.

#[local] Transparent renumber_vertices.

(** With 2^31 distinct 32-bit identifiers both copies return GDF_SUCCESS and
    leave a numbering map of size -2^31. *)
Lemma renumbering_ceiling_is_not_checked_on_32bit_path_witness :
  distinct_ids wide_src wide_dst = 2147483648 /\
  (Cugraph.gdf_renumber_vertices wide_src wide_dst fresh_outputs).1
    = Return GDF_SUCCESS /\
  size (Cugraph.numbering_map
          (Cugraph.gdf_renumber_vertices wide_src wide_dst fresh_outputs).2)
    = -2147483648 /\
  (Part005.gdf_renumber_vertices wide_src wide_dst fresh_outputs_005).1
    = Return GDF_SUCCESS /\
  size <$> Part005.numbering_map
             (Part005.gdf_renumber_vertices wide_src wide_dst fresh_outputs_005).2
    = Some (-2147483648).
Proof.
  assert (Hpos : size wide_src > 0) by (unfold wide_src, size; lia).
  assert (Hsz : size wide_src = size wide_dst).
  { cbv beta iota delta [wide_src wide_dst size]. reflexivity. }
  assert (Hty : dtype wide_src = dtype wide_dst).
  { cbv beta iota delta [wide_src wide_dst dtype]. reflexivity. }
  assert (Herr : ren_err (renumber_vertices (size wide_src) (as_ints (data wide_src))
                            (as_ints (data wide_dst))) = GDF_SUCCESS).
  { cbv beta iota zeta delta [renumber_vertices ren_err]. reflexivity. }
  destruct (renumbering_ceiling_is_not_checked_on_32bit_path
              wide_src wide_dst Hsz Hty Hpos Herr) as [_ H32].
  assert (Hw : dtype wide_src = GDF_INT32).
  { cbv beta iota delta [wide_src dtype]. reflexivity. }
  destruct (H32 Hw) as [Hc Hp].
  destruct (Hc fresh_outputs) as [Hc1 Hc2]. destruct (Hp fresh_outputs_005) as [Hp1 Hp2].
  rewrite (new_size_distinct_ids wide_src wide_dst Hsz) in Hc2, Hp2.
  rewrite distinct_ids_wide in Hc2, Hp2.
  split; [exact distinct_ids_wide|].
  split; [exact Hc1|]. split; [exact Hc2|]. split; [exact Hp1 | exact Hp2].
Defined.

(** ** Counting sort: offsets and scatter *)

Section CountingSortFacts.
Context {A : Type}.
Implicit Types (es done rest : list (nat * A)) (out : list A) (cur : list nat).












End CountingSortFacts.

Section ScatterFacts.
Context {A : Type}.
Implicit Types (all es done rest : list (nat * A)) (out : list A) (cur : list nat).




End ScatterFacts.

(** ** The converter's arrays *)






(** ** Adjacency list built from an edge list *)


#[local] Opaque counting_sort vertex_count.


#[local] Transparent counting_sort vertex_count.




(** On those edges the offsets are [0,2,3,3] and the indices [1,2,2]. *)
Example adjacency_of_three_edges :
  adjList (Cugraph.gdf_add_adj_list graph_of_three_edges).2
  = Some {| offsets := gdf_column_view (Ints [0; 2; 3; 3]) None 4 GDF_INT32;
            indices := gdf_column_view (Ints [1; 2; 2]) None 3 GDF_INT32;
            adj_edge_data := None;
            adj_ownership := 1 |}.
Proof. vm_compute. reflexivity. Qed.

(** * Further properties of the embedded code *)

(** Split on every test of a function body that the goal still shows. *)
Ltac split_tests :=
  repeat match goal with
  | |- context [bool_decide ?P] => destruct (bool_decide P) eqn:?; simpl
  end.

(** Take a graph object apart, down to the dtypes its functions test. *)
Ltac graph_cases graph :=
  destruct graph as
    [[[[?sd ?sv ?ssz ?st ?sn] [?dd ?dv ?dsz ?dt ?dn] [[?wd ?wv ?wsz ?wt ?wn]|] ?ow]|]
     [[[?od ?ov ?osz ?ot ?on] [?id ?iv ?isz ?it ?inn] [[?ad ?av ?asz ?at' ?an]|] ?aow]|]
     [?t|]].

(** ** Views that fail half-way *)

(** X1: when the offsets and indices (or the source and destination) columns
    pass every test of a view function of cugraph.cu but the edge data column
    has another size, the call returns GDF_COLUMN_SIZE_MISMATCH and leaves
    attached exactly the list that the same call without edge data attaches;
    from then on both view functions refuse the graph object with
    GDF_INVALID_API_CALL, whatever columns they are given. *)
Theorem failed_view_leaves_list_attached (c1 c2 ed : gdf_column) :
  (forall g,
     Cugraph.gdf_adj_list_view c1 c2 None empty_graph = (Return GDF_SUCCESS, g) ->
     size c2 <> size ed ->
     Cugraph.gdf_adj_list_view c1 c2 (Some ed) empty_graph
       = (Return GDF_COLUMN_SIZE_MISMATCH, g) /\
     forall c1' c2' ed',
       Cugraph.gdf_adj_list_view c1' c2' ed' g = (Return GDF_INVALID_API_CALL, g) /\
       Cugraph.gdf_edge_list_view c1' c2' ed' g = (Return GDF_INVALID_API_CALL, g)) /\
  (forall g,
     Cugraph.gdf_edge_list_view c1 c2 None empty_graph = (Return GDF_SUCCESS, g) ->
     size c1 <> size ed ->
     Cugraph.gdf_edge_list_view c1 c2 (Some ed) empty_graph
       = (Return GDF_COLUMN_SIZE_MISMATCH, g) /\
     forall c1' c2' ed',
       Cugraph.gdf_adj_list_view c1' c2' ed' g = (Return GDF_INVALID_API_CALL, g) /\
       Cugraph.gdf_edge_list_view c1' c2' ed' g = (Return GDF_INVALID_API_CALL, g)).
Proof.
  split; intros g Hrun Hsz;
    pose proof (bool_decide_eq_false_2 _ Hsz) as Hsz';
    revert Hrun;
    unfold Cugraph.gdf_adj_list_view, Cugraph.gdf_edge_list_view; unfold_M;
    simpl; rewrite Hsz'; split_tests; intros Hrun; try discriminate Hrun;
    injection Hrun as Hg; subst g; (split; [reflexivity|]);
    intros c1' c2' ed'; split; reflexivity.
Qed.

Lemma failed_view_leaves_list_attached_witness :
  Cugraph.gdf_adj_list_view path_offsets path_indices (Some one_weight) empty_graph
    = (Return GDF_COLUMN_SIZE_MISMATCH, path_csr) /\
  Cugraph.gdf_edge_list_view path_offsets path_indices None path_csr
    = (Return GDF_INVALID_API_CALL, path_csr).
Proof.
  assert (Hsz : size path_indices <> size one_weight) by (simpl; lia).
  destruct (proj1 (failed_view_leaves_list_attached path_offsets path_indices one_weight)
              path_csr eq_refl Hsz) as [Hfail Hlater].
  split; [exact Hfail | exact (proj2 (Hlater path_offsets path_indices None))].
Defined.

(** ** Adding and deleting representations *)

(** X2: in cugraph.cu, deleting a representation undoes the call that added
    it, whatever that call returned: on a graph without an adjacency list,
    [gdf_add_adj_list] followed by [gdf_delete_adj_list] gives back the graph
    as it was; likewise for the edge list, and for the transposed list of a
    graph that has an edge list. *)
Theorem delete_undoes_add (graph : gdf_graph) :
  (adjList graph = None ->
   Cugraph.gdf_delete_adj_list (Cugraph.gdf_add_adj_list graph).2
     = (Return GDF_SUCCESS, graph)) /\
  (edgeList graph = None ->
   Cugraph.gdf_delete_edge_list (Cugraph.gdf_add_edge_list graph).2
     = (Return GDF_SUCCESS, graph)) /\
  (transposedAdjList graph = None -> edgeList graph <> None ->
   Cugraph.gdf_delete_transposed_adj_list (Cugraph.gdf_add_transposed_adj_list graph).2
     = (Return GDF_SUCCESS, graph)).
Proof.
  split; [|split].
  - intros Ha. graph_cases graph; try discriminate Ha;
      try reflexivity; destruct st; try reflexivity; destruct wt; reflexivity.
  - intros He. graph_cases graph; try discriminate He; reflexivity.
  - intros Ht He. graph_cases graph; try discriminate Ht;
      try (contradict He; reflexivity);
      destruct st; try reflexivity; destruct dt; try reflexivity;
      destruct wt; reflexivity.
Qed.

Lemma delete_undoes_add_witness :
  Cugraph.gdf_delete_adj_list (Cugraph.gdf_add_adj_list graph_of_three_edges).2
    = (Return GDF_SUCCESS, graph_of_three_edges) /\
  Cugraph.gdf_delete_edge_list (Cugraph.gdf_add_edge_list path_csr).2
    = (Return GDF_SUCCESS, path_csr).
Proof.
  split.
  - exact (proj1 (delete_undoes_add graph_of_three_edges) eq_refl).
  - exact (proj1 (proj2 (delete_undoes_add path_csr)) eq_refl).
Defined.

(** The source array [gdf_add_edge_list] derives from the 32-bit offsets
    [0,1,2,2] of the path 0->1, 1->2. *)
Example edge_list_of_path_csr :
  src_indices <$> edgeList (Cugraph.gdf_add_edge_list path_csr).2
  = Some (gdf_column_view (Ints [0; 1]) None 2 GDF_INT32).
Proof. vm_compute. reflexivity. Qed.

(** From the same offsets in 64-bit cells both copies read the 32-bit halves
    0, 0, 1, 0: vertex 1 is given one edge, and the second cell of the source
    array is never written. *)
Example edge_list_of_wide_path_csr :
  src_indices <$> edgeList (Cugraph.gdf_add_edge_list wide_path_csr).2
  = Some (gdf_column_view (Ints [1; 0]) None 2 GDF_INT64) /\
  src_indices <$> edgeList (Part005.gdf_add_edge_list wide_path_csr).2
  = Some (gdf_column_view (Ints [1; 0]) None 2 GDF_INT64).
Proof. vm_compute. split; reflexivity. Qed.

(** X3: the same holds in the older copy of part_005 for
    [gdf_add_adj_list]/[gdf_delete_adj_list],
    [gdf_add_edge_list]/[gdf_delete_edge_list] and
    [gdf_add_transpose]/[gdf_delete_transpose]. *)
Theorem delete_undoes_add_in_older_copy (graph : gdf_graph) :
  (adjList graph = None ->
   Part005.gdf_delete_adj_list (Part005.gdf_add_adj_list graph).2
     = (Return GDF_SUCCESS, graph)) /\
  (edgeList graph = None ->
   Part005.gdf_delete_edge_list (Part005.gdf_add_edge_list graph).2
     = (Return GDF_SUCCESS, graph)) /\
  (transposedAdjList graph = None -> edgeList graph <> None ->
   Part005.gdf_delete_transpose (Part005.gdf_add_transpose graph).2
     = (Return GDF_SUCCESS, graph)).
Proof.
  split; [|split].
  - intros Ha. graph_cases graph; try discriminate Ha;
      try reflexivity; destruct st; try reflexivity; destruct wt; reflexivity.
  - intros He. graph_cases graph; try discriminate He; reflexivity.
  - intros Ht He. graph_cases graph; try discriminate Ht;
      try (contradict He; reflexivity);
      destruct st; try reflexivity; destruct dt; try reflexivity;
      destruct wt; reflexivity.
Qed.

Lemma delete_undoes_add_in_older_copy_witness :
  Part005.gdf_delete_transpose (Part005.gdf_add_transpose graph_of_three_edges).2
    = (Return GDF_SUCCESS, graph_of_three_edges).
Proof.
  apply (proj2 (proj2 (delete_undoes_add_in_older_copy graph_of_three_edges))).
  - reflexivity.
  - discriminate.
Defined.

(** X4: in cugraph.cu, adding a representation a second time changes
    nothing: after a call of [gdf_add_adj_list], [gdf_add_edge_list] or
    [gdf_add_transposed_adj_list] that returned GDF_SUCCESS, the same call
    returns GDF_SUCCESS again and leaves the graph as the first call left
    it. *)
Theorem add_twice_is_add_once (graph g1 : gdf_graph) :
  (Cugraph.gdf_add_adj_list graph = (Return GDF_SUCCESS, g1) ->
   Cugraph.gdf_add_adj_list g1 = (Return GDF_SUCCESS, g1)) /\
  (Cugraph.gdf_add_edge_list graph = (Return GDF_SUCCESS, g1) ->
   Cugraph.gdf_add_edge_list g1 = (Return GDF_SUCCESS, g1)) /\
  (Cugraph.gdf_add_transposed_adj_list graph = (Return GDF_SUCCESS, g1) ->
   Cugraph.gdf_add_transposed_adj_list g1 = (Return GDF_SUCCESS, g1)).
Proof.
  split; [|split]; intros Hrun.
  - graph_cases graph; try (injection Hrun as <-; reflexivity); try discriminate Hrun;
      destruct st; try discriminate Hrun; try (injection Hrun as <-; reflexivity);
      destruct wt; try discriminate Hrun; injection Hrun as <-; reflexivity.
  - graph_cases graph; try (injection Hrun as <-; reflexivity); discriminate Hrun.
  - graph_cases graph; try discriminate Hrun;
      try (destruct st; try discriminate Hrun; destruct dt; try discriminate Hrun;
           try (injection Hrun as <-; reflexivity);
           destruct wt; try discriminate Hrun; injection Hrun as <-; reflexivity);
      try (destruct it; try discriminate Hrun;
           try (injection Hrun as <-; reflexivity);
           destruct at'; try discriminate Hrun; injection Hrun as <-; reflexivity).
Qed.

Lemma add_twice_is_add_once_witness :
  Cugraph.gdf_add_transposed_adj_list
    (Cugraph.gdf_add_transposed_adj_list path_csr).2
  = (Return GDF_SUCCESS, (Cugraph.gdf_add_transposed_adj_list path_csr).2).
Proof.
  apply (proj2 (proj2 (add_twice_is_add_once path_csr
                         (Cugraph.gdf_add_transposed_adj_list path_csr).2))).
  reflexivity.
Defined.

(** X5: a graph object with neither an edge list nor an adjacency list is
    refused by [gdf_add_edge_list] and [gdf_add_adj_list] with
    GDF_INVALID_API_CALL, but [gdf_add_transposed_adj_list] (and
    [gdf_add_transpose] of the older copy) drops the error of the
    [gdf_add_edge_list] it calls and then reads through the null edge list:
    the call does not return. *)
Theorem transposed_list_of_nothing_crashes (graph : gdf_graph) :
  edgeList graph = None -> adjList graph = None ->
  Cugraph.gdf_add_edge_list graph = (Return GDF_INVALID_API_CALL, graph) /\
  Cugraph.gdf_add_adj_list graph = (Return GDF_INVALID_API_CALL, graph) /\
  Cugraph.gdf_add_transposed_adj_list graph = (Crash, graph) /\
  Part005.gdf_add_transpose graph = (Crash, graph).
Proof.
  intros He Ha. destruct graph as [e a t]. simpl in He, Ha. subst e a.
  repeat split; reflexivity.
Qed.

Lemma transposed_list_of_nothing_crashes_witness :
  Cugraph.gdf_add_transposed_adj_list empty_graph = (Crash, empty_graph).
Proof.
  exact (proj1 (proj2 (proj2
           (transposed_list_of_nothing_crashes empty_graph eq_refl eq_refl)))).
Defined.



(** ** 64-bit vertex ids *)

(** X7: [gdf_edge_list_view] of cugraph.cu accepts an edge list of 64-bit
    ids, but nothing can be made of it: [gdf_add_adj_list] and
    [gdf_add_transposed_adj_list] return GDF_UNSUPPORTED_DTYPE and leave the
    graph as it is, and so does [gdf_louvain] without touching its output
    column. *)
Theorem wide_edge_list_is_never_converted (c1 c2 : gdf_column)
    (ed : option gdf_column) (graph : gdf_graph) :
  dtype c1 = GDF_INT64 ->
  Cugraph.gdf_edge_list_view c1 c2 ed empty_graph = (Return GDF_SUCCESS, graph) ->
  Cugraph.gdf_add_adj_list graph = (Return GDF_UNSUPPORTED_DTYPE, graph) /\
  Cugraph.gdf_add_transposed_adj_list graph = (Return GDF_UNSUPPORTED_DTYPE, graph) /\
  (forall nvgraphLouvain parts,
     Cugraph.gdf_louvain nvgraphLouvain
       {| Cugraph.lv_graph := graph; Cugraph.louvain_parts := parts |}
     = (Return GDF_UNSUPPORTED_DTYPE,
        {| Cugraph.lv_graph := graph; Cugraph.louvain_parts := parts |})).
Proof.
  intros Hty. destruct c1 as [d1 v1 s1 t1 n1]. simpl in Hty. subst t1.
  unfold Cugraph.gdf_edge_list_view. unfold_M. simpl.
  split_tests; try discriminate;
    destruct ed as [ed|]; simpl; split_tests; try discriminate;
    intros [= <-]; repeat split.
Qed.

Lemma wide_edge_list_is_never_converted_witness :
  (Cugraph.gdf_edge_list_view (int_column [0; 1] GDF_INT64)
     (int_column [1; 2] GDF_INT64) None empty_graph).1 = Return GDF_SUCCESS /\
  Cugraph.gdf_add_adj_list wide_path_edges
    = (Return GDF_UNSUPPORTED_DTYPE, wide_path_edges).
Proof.
  split; [reflexivity|].
  exact (proj1 (wide_edge_list_is_never_converted (int_column [0; 1] GDF_INT64)
                  (int_column [1; 2] GDF_INT64) None wide_path_edges
                  eq_refl eq_refl)).
Defined.

(** X8: [gdf_louvain] has no error code for an adjacency list of 64-bit
    ids, which [gdf_adj_list_view] accepts: the conversion of the dtype to a
    cuda type throws and the call does not return.  On a graph with only an
    edge list whose ids are not 32-bit it returns the GDF_UNSUPPORTED_DTYPE of
    [gdf_add_adj_list], and on a graph with neither list
    GDF_INVALID_API_CALL; in all three cases the graph and the output column
    are untouched. *)
Theorem gdf_louvain_on_64bit_graph
    (nvgraphLouvain : gdf_dtype -> gdf_dtype -> Z -> Z -> buffer -> buffer -> buffer
                      -> buffer)
    (st : Cugraph.louvain_state) :
  (forall adj,
     adjList (Cugraph.lv_graph st) = Some adj ->
     dtype (indices adj) = GDF_INT64 ->
     Cugraph.gdf_louvain nvgraphLouvain st = (Crash, st)) /\
  (forall el,
     adjList (Cugraph.lv_graph st) = None ->
     edgeList (Cugraph.lv_graph st) = Some el ->
     dtype (src_indices el) <> GDF_INT32 ->
     Cugraph.gdf_louvain nvgraphLouvain st = (Return GDF_UNSUPPORTED_DTYPE, st)) /\
  (adjList (Cugraph.lv_graph st) = None ->
   edgeList (Cugraph.lv_graph st) = None ->
   Cugraph.gdf_louvain nvgraphLouvain st = (Return GDF_INVALID_API_CALL, st)).
Proof.
  destruct st as [[el [adj|] t] parts]; (split; [|split]); simpl; try discriminate.
  - intros adj' [= <-] Hty.
    destruct adj as [o [id iv isz it inn] ed ow]. simpl in Hty. subst it.
    destruct el; reflexivity.
  - intros el' _ [= ->] Hty.
    destruct el' as [[sd sv ssz sty sn] dst ed ow]. simpl in Hty.
    destruct sty; try contradiction; reflexivity.
  - intros _ ->. reflexivity.
Qed.

Lemma gdf_louvain_on_64bit_graph_witness :
  (Cugraph.gdf_adj_list_view (int_column [0; 1; 2; 2] GDF_INT64)
     (int_column [1; 2] GDF_INT64) None empty_graph).1 = Return GDF_SUCCESS /\
  Cugraph.gdf_louvain (fun _ _ _ _ _ indices_ptr _ => indices_ptr)
    {| Cugraph.lv_graph := wide_path_csr;
       Cugraph.louvain_parts := int_column [0; 0; 0] GDF_INT32 |}
  = (Crash, {| Cugraph.lv_graph := wide_path_csr;
               Cugraph.louvain_parts := int_column [0; 0; 0] GDF_INT32 |}).
Proof.
  split; [reflexivity|].
  exact (proj1 (gdf_louvain_on_64bit_graph (fun _ _ _ _ _ indices_ptr _ => indices_ptr)
                  {| Cugraph.lv_graph := wide_path_csr;
                     Cugraph.louvain_parts := int_column [0; 0; 0] GDF_INT32 |})
           _ eq_refl eq_refl).
Defined.

(** X20: the older copy of part_005 accepts 64-bit ids in both view
    functions, but [gdf_bfs] and [gdf_pagerank] return GDF_UNSUPPORTED_DTYPE
    on such a graph, given as an edge list or in compressed form, and leave
    the graph and their output columns as they were. *)
Theorem traversals_refuse_64bit_graph (c1 c2 : gdf_column)
    (ed : option gdf_column) (graph : gdf_graph) :
  dtype c1 = GDF_INT64 ->
  Part005.gdf_edge_list_view c1 c2 ed empty_graph = (Return GDF_SUCCESS, graph) \/
  Part005.gdf_adj_list_view c1 c2 ed empty_graph = (Return GDF_SUCCESS, graph) ->
  (forall start_node directed dist pred,
     Part005.gdf_bfs start_node directed
       {| Part005.bfs_graph := graph; Part005.distances := dist;
          Part005.predecessors := pred |}
     = (Return GDF_UNSUPPORTED_DTYPE,
        {| Part005.bfs_graph := graph; Part005.distances := dist;
           Part005.predecessors := pred |})) /\
  (forall alpha tolerance max_iter has_guess pr,
     Part005.gdf_pagerank alpha tolerance max_iter has_guess
       {| Part005.pr_graph := graph; Part005.pr_column := pr |}
     = (Return GDF_UNSUPPORTED_DTYPE,
        {| Part005.pr_graph := graph; Part005.pr_column := pr |})).
Proof.
  intros Hty. destruct c1 as [d1 v1 s1 t1 n1]. simpl in Hty. subst t1.
  unfold Part005.gdf_edge_list_view, Part005.gdf_adj_list_view. unfold_M. simpl.
  intros [Hview | Hview]; revert Hview;
    split_tests; try discriminate;
    destruct ed as [ed|]; simpl; split_tests; try discriminate;
    intros [= <-]; split; reflexivity.
Qed.

Lemma traversals_refuse_64bit_graph_witness :
  Part005.gdf_bfs 0 true (bfs_input wide_path_csr)
  = (Return GDF_UNSUPPORTED_DTYPE, bfs_input wide_path_csr).
Proof.
  apply (proj1 (traversals_refuse_64bit_graph (int_column [0; 1; 2; 2] GDF_INT64)
                  (int_column [1; 2] GDF_INT64) None wide_path_csr eq_refl
                  (or_intror eq_refl))).
Defined.

(** ** The two copies of the view functions *)

(** X9: the view functions of the older copy in part_005 only test the slot
    they fill.  On a graph whose slot is free they do what those of
    cugraph.cu do on an empty graph object (same return value, same list
    attached) and keep whatever else the graph holds: unlike cugraph.cu, the
    older copy lets one graph object view two unrelated representations. *)
Theorem older_views_only_test_their_slot (graph : gdf_graph)
    (c1 c2 : gdf_column) (ed : option gdf_column) :
  (edgeList graph = None ->
   Part005.gdf_edge_list_view c1 c2 ed graph
   = let r := Cugraph.gdf_edge_list_view c1 c2 ed empty_graph in
     (r.1, {| edgeList := edgeList r.2; adjList := adjList graph;
              transposedAdjList := transposedAdjList graph |})) /\
  (adjList graph = None ->
   Part005.gdf_adj_list_view c1 c2 ed graph
   = let r := Cugraph.gdf_adj_list_view c1 c2 ed empty_graph in
     (r.1, {| edgeList := edgeList graph; adjList := adjList r.2;
              transposedAdjList := transposedAdjList graph |})).
Proof.
  split; intros Hslot; destruct graph as [e a t]; simpl in Hslot; subst;
    unfold Part005.gdf_edge_list_view, Cugraph.gdf_edge_list_view,
           Part005.gdf_adj_list_view, Cugraph.gdf_adj_list_view; unfold_M;
    simpl; split_tests; try reflexivity; destruct ed as [ed|]; simpl;
    split_tests; reflexivity.
Qed.

Lemma older_views_only_test_their_slot_witness :
  Part005.gdf_edge_list_view (int_column [0; 5] GDF_INT32)
    (int_column [5; 6] GDF_INT32) None path_csr
  = (Return GDF_SUCCESS,
     {| edgeList := Some {| src_indices := int_column [0; 5] GDF_INT32;
                            dest_indices := int_column [5; 6] GDF_INT32;
                            edge_data := None; ownership := 0 |};
        adjList := adjList path_csr;
        transposedAdjList := None |}).
Proof.
  exact (proj1 (older_views_only_test_their_slot path_csr
                  (int_column [0; 5] GDF_INT32) (int_column [5; 6] GDF_INT32) None)
           eq_refl).
Defined.

(** ** Renumbering: the two copies, and the device work *)

#[local] Opaque renumber_vertices.

(** Unfold a call of [gdf_renumber_vertices] on the state [st], with what the
    helper hands back named. *)
Ltac unfold_renumber st :=
  unfold Cugraph.gdf_renumber_vertices, Part005.gdf_renumber_vertices,
    Cugraph.call_renumber_vertices, Part005.call_renumber_vertices;
  cbv zeta;
  destruct (renumber_vertices _ _ _) as [?err ?rs ?rd ?ns ?rm];
  destruct st as [?s0 ?d0 ?m0 ?w0];
  unfold Cugraph.log, Part005.log, Cugraph.set_src_renumbered, Part005.set_src_renumbered,
    Cugraph.set_dst_renumbered, Part005.set_dst_renumbered,
    Cugraph.set_numbering_map, Part005.set_numbering_map, Part005.new_columns;
  unfold bind, GDF_REQUIRE, get, put, modify, return_, ret; simpl.

(** Both copies appended the same events to their record of device work. *)
Ltac same_work :=
  first [ exists []; rewrite !app_nil_r; split; reflexivity
        | eexists; rewrite <- !app_assoc; split; reflexivity ].

(** X10: on the same input columns the two copies of [gdf_renumber_vertices]
    return the same value and do the same device work, whatever the helper
    [cugraph::renumber_vertices] hands back; after a success they leave the
    same two renumbered columns and the same numbering map, except for the
    dtype tag of the map: cugraph.cu gives it the dtype of the input, the
    older copy always GDF_INT32, also for 64-bit input. *)
Theorem renumbering_copies_agree (src dst : gdf_column)
    (st : Cugraph.renumber_state) (st5 : Part005.renumber_state) :
  let r := Cugraph.gdf_renumber_vertices src dst st in
  let r5 := Part005.gdf_renumber_vertices src dst st5 in
  r5.1 = r.1 /\
  (exists w, Cugraph.work r.2 = Cugraph.work st ++ w /\
             Part005.work r5.2 = Part005.work st5 ++ w) /\
  (r.1 = Return GDF_SUCCESS ->
   Part005.src_renumbered r5.2 = Some (Cugraph.src_renumbered r.2) /\
   Part005.dst_renumbered r5.2 = Some (Cugraph.dst_renumbered r.2) /\
   Part005.numbering_map r5.2
     = Some (with_dtype GDF_INT32 (Cugraph.numbering_map r.2)) /\
   dtype (Cugraph.numbering_map r.2) = dtype src).
Proof.
  destruct st5 as [s5 d5 m5 w5]. unfold_renumber st.
  split_tests.
  all: (split; [reflexivity|]; split; [same_work|]).
  all: try discriminate.
  all: intros Hok.
  all: try (injection Hok as ->;
            match goal with
            | H : bool_decide (_ <> _) = true |- _ =>
                apply bool_decide_eq_true_1 in H; contradiction
            end).
  all: repeat split; try reflexivity.
Qed.

(** X11: what a call of cugraph.cu's [gdf_renumber_vertices] costs, whatever
    the helper hands back.  With arguments that pass the size and dtype
    tests, an empty input returns GDF_DATASET_EMPTY with nothing touched; a
    non-empty one makes exactly two device allocations of 4 bytes per input
    row and one call of the helper, and nothing is freed unless the call
    returns GDF_COLUMN_SIZE_TOO_BIG on 64-bit input, where two frees follow
    and the numbering map is left as it was.  The two renumbered columns are
    then tagged GDF_INT32, with the size and the validity mask of the
    inputs. *)
Theorem renumbering_device_work (src dst : gdf_column) (st : Cugraph.renumber_state) :
  size src = size dst -> dtype src = dtype dst -> supported_width (dtype src) ->
  let r := Cugraph.gdf_renumber_vertices src dst st in
  let a := EvAlloc (4 * size src) in
  (size src <= 0 -> r = (Return GDF_DATASET_EMPTY, st)) /\
  (size src > 0 ->
   (Cugraph.work r.2 = Cugraph.work st ++ [a; a; EvRenumber] \/
    Cugraph.work r.2 = Cugraph.work st ++ [a; a; EvRenumber; EvFree; EvFree] /\
    r.1 = Return GDF_COLUMN_SIZE_TOO_BIG /\ dtype src = GDF_INT64 /\
    Cugraph.numbering_map r.2 = Cugraph.numbering_map st) /\
   (r.1 = Return GDF_SUCCESS ->
    Cugraph.work r.2 = Cugraph.work st ++ [a; a; EvRenumber]) /\
   size (Cugraph.src_renumbered r.2) = size src /\
   size (Cugraph.dst_renumbered r.2) = size dst /\
   valid (Cugraph.src_renumbered r.2) = valid src /\
   valid (Cugraph.dst_renumbered r.2) = valid dst /\
   dtype (Cugraph.src_renumbered r.2) = GDF_INT32 /\
   dtype (Cugraph.dst_renumbered r.2) = GDF_INT32).
Proof.
  intros Hsz Hty Hw.
  pose proof (bool_decide_eq_true_2 _ Hsz) as Hsz'.
  pose proof (bool_decide_eq_true_2 _ Hty) as Hty'.
  unfold_renumber st. rewrite Hsz', Hty'. simpl.
  split.
  - intros Hle. rewrite (bool_decide_eq_false_2 (size src > 0)) by lia.
    destruct Hw as [-> | ->]; reflexivity.
  - intros Hgt. rewrite (bool_decide_eq_true_2 _ Hgt).
    destruct Hw as [H32 | H64].
    + rewrite (bool_decide_eq_true_2 _ H32). simpl.
      destruct (bool_decide (err <> GDF_SUCCESS)); simpl; rewrite <- !app_assoc;
        repeat split; try (left; reflexivity); congruence.
    + rewrite (bool_decide_eq_false_2 (dtype src = GDF_INT32)) by congruence.
      rewrite (bool_decide_eq_true_2 _ H64). simpl.
      destruct (bool_decide (err <> GDF_SUCCESS)); simpl;
        [| destruct (bool_decide (ns > 2147483647)); simpl ];
        rewrite <- !app_assoc;
        repeat split; try (left; reflexivity); try congruence;
        try discriminate.
      right. repeat split. exact H64.
Qed.

#[local] Transparent renumber_vertices.

Lemma renumbering_copies_agree_witness :
  dtype (Cugraph.numbering_map
           (Cugraph.gdf_renumber_vertices (int_column [10; 10; 30; 40] GDF_INT64)
              (int_column [30; 40; 10; 10] GDF_INT64) fresh_outputs).2) = GDF_INT64 /\
  dtype <$> Part005.numbering_map
              (Part005.gdf_renumber_vertices (int_column [10; 10; 30; 40] GDF_INT64)
                 (int_column [30; 40; 10; 10] GDF_INT64) fresh_outputs_005).2
  = Some GDF_INT32.
Proof.
  destruct (renumbering_copies_agree (int_column [10; 10; 30; 40] GDF_INT64)
              (int_column [30; 40; 10; 10] GDF_INT64) fresh_outputs fresh_outputs_005)
    as (_ & _ & Hok).
  destruct (Hok eq_refl) as (_ & _ & Hmap & Hty).
  split; [exact Hty|]. rewrite Hmap. reflexivity.
Defined.

Lemma renumbering_device_work_witness :
  Cugraph.work (Cugraph.gdf_renumber_vertices raw_src raw_dst fresh_outputs).2
  = [EvAlloc 16; EvAlloc 16; EvRenumber].
Proof.
  assert (Hw : supported_width (dtype raw_src)) by (left; reflexivity).
  destruct (renumbering_device_work raw_src raw_dst fresh_outputs eq_refl eq_refl Hw)
    as [_ Hpos].
  destruct (Hpos ltac:(simpl; lia)) as (_ & Hok & _).
  exact (Hok eq_refl).
Defined.

(** ** Pagerank and breadth-first search: what the entry points leave behind *)

(** X12: [gdf_pagerank] cannot be used on a graph handed over in compressed
    form only.  With a 32-bit adjacency list, no edge list and a float or
    double rank column, the call returns GDF_VALIDITY_UNSUPPORTED (the test
    of [gdf_pagerank_impl] for an edge list) and changes nothing; with a null
    rank column it reads the dtype through the null pointer before
    [gdf_pagerank_impl] could test for it, and does not return. *)
Theorem gdf_pagerank_on_compressed_graph (alpha tolerance : Q) (max_iter : Z)
    (has_guess : bool) (st : Part005.pagerank_state) (adj : gdf_adj_list) :
  edgeList (Part005.pr_graph st) = None ->
  adjList (Part005.pr_graph st) = Some adj ->
  dtype (offsets adj) = GDF_INT32 -> dtype (indices adj) = GDF_INT32 ->
  (forall pr, Part005.pr_column st = Some pr ->
     dtype pr = GDF_FLOAT32 \/ dtype pr = GDF_FLOAT64 ->
     Part005.gdf_pagerank alpha tolerance max_iter has_guess st
       = (Return GDF_VALIDITY_UNSUPPORTED, st)) /\
  (Part005.pr_column st = None ->
   Part005.gdf_pagerank alpha tolerance max_iter has_guess st = (Crash, st)).
Proof.
  intros He Ha Ho Hi.
  destruct st as [[e a t] pr]. simpl in He, Ha. subst e a.
  destruct adj as [[od ov osz ot on] [id iv isz it inn] ed aow].
  simpl in Ho, Hi. subst ot it.
  split.
  - intros pr' Hpr Hty. simpl in Hpr. subst pr.
    destruct pr' as [pd pv psz pt pn]. simpl in Hty.
    destruct Hty as [-> | ->]; reflexivity.
  - simpl. intros ->. reflexivity.
Qed.

Lemma gdf_pagerank_on_compressed_graph_witness :
  Part005.gdf_pagerank (85 # 100) (1 # 10000) 200 false
    {| Part005.pr_graph := cycle4_csr;
       Part005.pr_column := Some (real_column [0%Q; 0%Q; 0%Q; 0%Q] GDF_FLOAT32) |}
  = (Return GDF_VALIDITY_UNSUPPORTED,
     {| Part005.pr_graph := cycle4_csr;
        Part005.pr_column := Some (real_column [0%Q; 0%Q; 0%Q; 0%Q] GDF_FLOAT32) |}).
Proof.
  apply (proj1 (gdf_pagerank_on_compressed_graph (85 # 100) (1 # 10000) 200 false
                  {| Part005.pr_graph := cycle4_csr;
                     Part005.pr_column :=
                       Some (real_column [0%Q; 0%Q; 0%Q; 0%Q] GDF_FLOAT32) |}
                  _ eq_refl eq_refl eq_refl eq_refl)
           (real_column [0%Q; 0%Q; 0%Q; 0%Q] GDF_FLOAT32) eq_refl).
  left. reflexivity.
Defined.

#[local] Opaque HT_matrix_csc_coo pagerank Part005.gdf_add_transpose.

Lemma gdf_pagerank_impl_keeps_descriptor (alpha tolerance : Q) (max_iter : Z)
    (has_guess : bool) (st : Part005.pagerank_state) :
  descriptor <$> Part005.pr_column
    (Part005.gdf_pagerank_impl alpha tolerance max_iter has_guess st).2
  = descriptor <$> Part005.pr_column st.
Proof.
  unfold Part005.gdf_pagerank_impl. unfold_M.
  destruct st as [graph pr]. simpl.
  destruct (edgeList graph) as [el|]; simpl; [|reflexivity].
  repeat match goal with
  | |- context [bool_decide ?P] => destruct (bool_decide P); simpl; [|reflexivity]
  end.
  destruct pr as [pr|]; simpl; [|reflexivity].
  destruct (is_nullptr (data pr)) eqn:Hnull; simpl; [reflexivity|].
  repeat match goal with
  | |- context [bool_decide (?x = 0)] =>
      destruct (bool_decide (x = 0)); simpl; [|reflexivity]
  | |- context [bool_decide (?x > 0)] =>
      destruct (bool_decide (x > 0)); simpl; [|reflexivity]
  end.
  destruct has_guess; simpl; rewrite ?Hnull; simpl;
    (destruct (isnull (transposedAdjList graph)); simpl;
     [ unfold Part005.on_graph; simpl;
       destruct (Part005.gdf_add_transpose graph) as [[x | e |] g1]; simpl;
       first [reflexivity | pagerank_tail]
     | pagerank_tail ]).
Qed.

#[local] Opaque Part005.gdf_pagerank_impl Part005.gdf_add_adj_list.

(** X13: [gdf_pagerank] writes to the caller's rank column only when it
    returns GDF_SUCCESS; on every other outcome (an error code, or no return
    at all) the column is what it was, and on every outcome its validity
    mask, size, dtype and null count are what they were. *)
Theorem gdf_pagerank_writes_on_success_only (alpha tolerance : Q) (max_iter : Z)
    (has_guess : bool) (st : Part005.pagerank_state) :
  let r := Part005.gdf_pagerank alpha tolerance max_iter has_guess st in
  (r.1 <> Return GDF_SUCCESS -> Part005.pr_column r.2 = Part005.pr_column st) /\
  descriptor <$> Part005.pr_column r.2 = descriptor <$> Part005.pr_column st.
Proof.
  pose proof (gdf_pagerank_impl_error_keeps_column alpha tolerance max_iter has_guess)
    as Hkeep.
  pose proof (gdf_pagerank_impl_keeps_descriptor alpha tolerance max_iter has_guess)
    as Himpl.
  unfold Part005.gdf_pagerank, Part005.on_graph. unfold_M.
  destruct st as [graph pr]. simpl.
  destruct (negb (isnull (adjList graph)) || negb (isnull (edgeList graph)));
    simpl; [| split; reflexivity].
  destruct (Part005.gdf_add_adj_list graph) as [[x | e |] g1];
    simpl; try (split; reflexivity).
  all: try match goal with
       | |- context [bool_decide (?e <> GDF_SUCCESS)] =>
           destruct (bool_decide (e <> GDF_SUCCESS)); simpl; [split; reflexivity |]
       end.
  all: destruct (adjList g1) as [adj|]; simpl; [| split; reflexivity].
  all: repeat match goal with
       | |- context [bool_decide ?P] =>
           destruct (bool_decide P); simpl; [| split; reflexivity]
       end.
  all: destruct pr as [pr|]; simpl; [| split; reflexivity].
  all: destruct (dtype pr); try (split; reflexivity).
  all: split; [apply Hkeep | apply Himpl].
Qed.

#[local] Transparent Part005.gdf_pagerank_impl Part005.gdf_add_adj_list.
#[local] Transparent HT_matrix_csc_coo pagerank Part005.gdf_add_transpose.

Lemma gdf_pagerank_writes_on_success_only_witness :
  Part005.pr_column
    (Part005.gdf_pagerank (85 # 100) (1 # 10000) 1 false
       {| Part005.pr_graph := wide_path_edges;
          Part005.pr_column := Some (real_column [0%Q; 0%Q; 0%Q] GDF_FLOAT32) |}).2
  = Some (real_column [0%Q; 0%Q; 0%Q] GDF_FLOAT32).
Proof.
  apply (proj1 (gdf_pagerank_writes_on_success_only (85 # 100) (1 # 10000) 1 false
                  {| Part005.pr_graph := wide_path_edges;
                     Part005.pr_column :=
                       Some (real_column [0%Q; 0%Q; 0%Q] GDF_FLOAT32) |})).
  discriminate.
Defined.

Lemma gdf_add_adj_list_frame_005 (graph : gdf_graph) :
  edgeList (Part005.gdf_add_adj_list graph).2 = edgeList graph /\
  transposedAdjList (Part005.gdf_add_adj_list graph).2 = transposedAdjList graph.
Proof.
  graph_cases graph; try (split; reflexivity);
    destruct st; try (split; reflexivity); destruct wt; split; reflexivity.
Qed.

#[local] Opaque Part005.gdf_add_adj_list Bfs_traverse.

(** X14: [gdf_bfs] writes to the caller's distance and predecessor columns
    only when it returns GDF_SUCCESS; on every other outcome both are what
    they were.  On every outcome their validity masks, sizes, dtypes and null
    counts are kept, and so are the edge list and the transposed list of the
    graph: the only thing the call may add to the graph is the adjacency
    list. *)
Theorem gdf_bfs_writes_on_success_only (start_node : Z) (directed : bool)
    (st : Part005.bfs_state) :
  let r := Part005.gdf_bfs start_node directed st in
  (r.1 <> Return GDF_SUCCESS ->
   Part005.distances r.2 = Part005.distances st /\
   Part005.predecessors r.2 = Part005.predecessors st) /\
  descriptor (Part005.distances r.2) = descriptor (Part005.distances st) /\
  descriptor (Part005.predecessors r.2) = descriptor (Part005.predecessors st) /\
  edgeList (Part005.bfs_graph r.2) = edgeList (Part005.bfs_graph st) /\
  transposedAdjList (Part005.bfs_graph r.2) = transposedAdjList (Part005.bfs_graph st).
Proof.
  destruct st as [graph dist pred].
  pose proof (gdf_add_adj_list_frame_005 graph) as [Hfe Hft].
  unfold Part005.gdf_bfs, Part005.on_bfs_graph. unfold_M. simpl.
  destruct (negb (isnull (adjList graph)) || negb (isnull (edgeList graph))); simpl;
    [| repeat split; reflexivity].
  destruct (Part005.gdf_add_adj_list graph) as [[x | e |] g1]; simpl in *;
    try (repeat split; solve [reflexivity | assumption]).
  all: try match goal with
       | |- context [bool_decide (?e <> GDF_SUCCESS)] =>
           destruct (bool_decide (e <> GDF_SUCCESS)); simpl;
           [repeat split; solve [reflexivity | assumption] |]
       end.
  all: destruct (adjList g1) as [adj|]; simpl;
    [| repeat split; solve [reflexivity | assumption]].
  all: split_tests; try (repeat split; solve [reflexivity | assumption]).
  all: destruct (Bfs_traverse _ _ _ _ _ _ _ _) as [[d p]|]; simpl;
    repeat split;
    solve [ reflexivity | assumption
          | exfalso; match goal with H : ?x <> ?x |- _ => apply H; reflexivity end ].
Qed.

#[local] Transparent Part005.gdf_add_adj_list Bfs_traverse.

Lemma gdf_bfs_writes_on_success_only_witness :
  Part005.distances (Part005.gdf_bfs 0 true (bfs_input wide_path_edges)).2
    = Part005.distances (bfs_input wide_path_edges) /\
  Part005.predecessors (Part005.gdf_bfs 0 true (bfs_input wide_path_edges)).2
    = Part005.predecessors (bfs_input wide_path_edges).
Proof.
  apply (proj1 (gdf_bfs_writes_on_success_only 0 true (bfs_input wide_path_edges))).
  discriminate.
Defined.

(** ** Degrees *)

Section DegreeFacts.
Variable degree_offsets degree_coo : Z -> Z -> Z -> Z -> list Z -> list Z -> list Z.
Variable CUDA_MAX_KERNEL_THREADS CUDA_MAX_BLOCKS : Z.

Lemma launch_dims_zero (k : Z) :
  0 <= CUDA_MAX_KERNEL_THREADS -> k = 0 ->
  Cugraph.launch_dims CUDA_MAX_KERNEL_THREADS CUDA_MAX_BLOCKS k = None.
Proof.
  intros Hmax ->. unfold Cugraph.launch_dims, Cugraph.to_unsigned.
  rewrite Z.min_l by exact Hmax. reflexivity.
Qed.

Lemma launch_dims_positive (k : Z) :
  0 < CUDA_MAX_KERNEL_THREADS < 2 ^ 32 -> 0 < k ->
  exists nblocks nthreads,
    Cugraph.launch_dims CUDA_MAX_KERNEL_THREADS CUDA_MAX_BLOCKS k
    = Some (nblocks, nthreads).
Proof.
  intros Hmax Hk. unfold Cugraph.launch_dims, Cugraph.to_unsigned.
  rewrite Z.mod_small by lia.
  rewrite bool_decide_eq_false_2 by lia. eauto.
Qed.

(** One call of [gdf_degree_impl] as [gdf_degree] makes it: the value it
    returns is dropped, only a call that does not return is seen. *)
Lemma gdf_degree_impl_call (n e : Z) (col_ptr : gdf_column) (offsets : bool)
    (st : Cugraph.degree_state) :
  let r := call (Cugraph.gdf_degree_impl degree_offsets degree_coo
                   CUDA_MAX_KERNEL_THREADS CUDA_MAX_BLOCKS n e col_ptr offsets) st in
  Cugraph.dg_graph r.2 = Cugraph.dg_graph st /\
  (r.1 = Crash \/ exists err, r.1 = Next err) /\
  (Cugraph.launch_dims CUDA_MAX_KERNEL_THREADS CUDA_MAX_BLOCKS
     (if offsets then n else e) = None -> r = (Crash, st)) /\
  (Cugraph.launch_dims CUDA_MAX_KERNEL_THREADS CUDA_MAX_BLOCKS
     (if offsets then n else e) <> None ->
   dtype col_ptr <> GDF_INT32 -> r = (Next GDF_UNSUPPORTED_DTYPE, st)).
Proof.
  unfold Cugraph.gdf_degree_impl, Cugraph.set_degree_data, call. unfold_M.
  destruct st as [g d]. destruct offsets; simpl.
  - destruct (Cugraph.launch_dims _ _ n) as [[nb nt]|]; simpl.
    + destruct (dtype col_ptr); simpl; repeat split;
        solve [right; eauto | discriminate | contradiction].
    + repeat split; solve [left; reflexivity | contradiction].
  - destruct (Cugraph.launch_dims _ _ e) as [[nb nt]|]; simpl.
    + destruct (dtype col_ptr); simpl; repeat split;
        solve [right; eauto | discriminate | contradiction].
    + repeat split; solve [left; reflexivity | contradiction].
Qed.
End DegreeFacts.

#[local] Opaque Cugraph.gdf_degree_impl.

(** Run the next call of [gdf_degree_impl] in the goal: it yields a value or
    does not return. *)
Ltac degree_pass :=
  match goal with
  | |- context [call (Cugraph.gdf_degree_impl ?k1 ?k2 ?mt ?mb ?n ?e ?c ?o) ?s] =>
      let H := fresh "Hpass" in
      pose proof (gdf_degree_impl_call k1 k2 mt mb n e c o s) as H;
      cbv zeta in H;
      destruct (call (Cugraph.gdf_degree_impl k1 k2 mt mb n e c o) s)
        as [[?err | ?err |] ?s'];
      simpl in H |- *;
      [ | exfalso; destruct H as (_ & [H | [? H]] & _); discriminate H | ]
  end.

(** X15: [gdf_degree] reports no failure of its passes.  Without an
    adjacency or transposed list it returns GDF_INVALID_API_CALL and touches
    nothing; with one it returns GDF_SUCCESS or does not return, whatever
    [gdf_degree_impl] returned.  In particular on an adjacency list of 64-bit
    ids (with vertices and edges), where every pass refuses the dtype, the
    call returns GDF_SUCCESS with the degree column exactly as it was. *)
Theorem gdf_degree_never_reports_a_failure
    (degree_offsets degree_coo : Z -> Z -> Z -> Z -> list Z -> list Z -> list Z)
    (CUDA_MAX_KERNEL_THREADS CUDA_MAX_BLOCKS : Z) (x : Z)
    (st : Cugraph.degree_state) :
  let r := Cugraph.gdf_degree degree_offsets degree_coo
             CUDA_MAX_KERNEL_THREADS CUDA_MAX_BLOCKS x st in
  (adjList (Cugraph.dg_graph st) = None ->
   transposedAdjList (Cugraph.dg_graph st) = None ->
   r = (Return GDF_INVALID_API_CALL, st)) /\
  (adjList (Cugraph.dg_graph st) <> None \/
   transposedAdjList (Cugraph.dg_graph st) <> None ->
   r.1 = Return GDF_SUCCESS \/ r.1 = Crash) /\
  (forall adj,
     adjList (Cugraph.dg_graph st) = Some adj ->
     dtype (offsets adj) <> GDF_INT32 -> dtype (indices adj) <> GDF_INT32 ->
     0 < CUDA_MAX_KERNEL_THREADS < 2 ^ 32 ->
     0 < size (offsets adj) - 1 -> 0 < size (indices adj) ->
     r = (Return GDF_SUCCESS, st)).
Proof.
  unfold Cugraph.gdf_degree.
  unfold bind, GDF_REQUIRE, get, return_, ret, deref, crash.
  destruct st as [[el [adj|] t] d]; simpl.
  - split; [discriminate|]. split.
    + intros _. destruct (bool_decide (x <> 1)); simpl;
        [degree_pass; [| right; reflexivity] |];
        (destruct (bool_decide (x <> 2)); simpl;
         [degree_pass; [| right; reflexivity] |]); left; reflexivity.
    + intros adj' [= <-] Ho Hi Hmax Hn He.
      destruct (launch_dims_positive CUDA_MAX_KERNEL_THREADS CUDA_MAX_BLOCKS _ Hmax Hn)
        as (nb & nt & Hdn).
      destruct (launch_dims_positive CUDA_MAX_KERNEL_THREADS CUDA_MAX_BLOCKS _ Hmax He)
        as (nb' & nt' & Hde).
      destruct (bool_decide (x <> 1)); simpl.
      * degree_pass.
        all: destruct Hpass as (_ & _ & _ & Hbad);
          specialize (Hbad ltac:(rewrite Hdn; discriminate) Ho); try discriminate Hbad.
        injection Hbad as _ ->.
        destruct (bool_decide (x <> 2)); simpl; [|reflexivity].
        degree_pass.
        all: destruct Hpass as (_ & _ & _ & Hbad);
          specialize (Hbad ltac:(rewrite Hde; discriminate) Hi); try discriminate Hbad.
        injection Hbad as _ ->. reflexivity.
      * destruct (bool_decide (x <> 2)); simpl; [|reflexivity].
        degree_pass.
        all: destruct Hpass as (_ & _ & _ & Hbad);
          specialize (Hbad ltac:(rewrite Hde; discriminate) Hi); try discriminate Hbad.
        injection Hbad as _ ->. reflexivity.
  - destruct t as [t|]; simpl.
    + split; [discriminate|]. split; [|discriminate].
      intros _. destruct (bool_decide (x <> 1)); simpl;
        [degree_pass; [| right; reflexivity] |];
        (destruct (bool_decide (x <> 2)); simpl;
         [degree_pass; [| right; reflexivity] |]); left; reflexivity.
    + split; [reflexivity|]. split; [|discriminate].
      intros [H | H]; contradiction.
Qed.

(** X16: [gdf_adj_list_view] accepts an offsets column of size 1 (a graph
    without vertices) and an indices column of size 0 (a graph without
    edges), but [gdf_degree] cannot handle them: the launch configuration of
    the pass over the offsets divides by [min(n, CUDA_MAX_KERNEL_THREADS) = 0]
    when there is no vertex, that of the pass over the indices by
    [min(e, CUDA_MAX_KERNEL_THREADS) = 0] when there is no edge, and the call
    does not return. *)
Theorem gdf_degree_divides_by_zero
    (degree_offsets degree_coo : Z -> Z -> Z -> Z -> list Z -> list Z -> list Z)
    (CUDA_MAX_KERNEL_THREADS CUDA_MAX_BLOCKS : Z) (x : Z)
    (c_offsets c_indices : gdf_column) (c_edge_data : option gdf_column)
    (graph : gdf_graph) (degree : gdf_column) :
  0 <= CUDA_MAX_KERNEL_THREADS ->
  Cugraph.gdf_adj_list_view c_offsets c_indices c_edge_data empty_graph
    = (Return GDF_SUCCESS, graph) ->
  let st := {| Cugraph.dg_graph := graph; Cugraph.dg_degree := degree |} in
  let r := Cugraph.gdf_degree degree_offsets degree_coo
             CUDA_MAX_KERNEL_THREADS CUDA_MAX_BLOCKS x st in
  (size c_offsets = 1 -> x <> 1 -> r = (Crash, st)) /\
  (size c_indices = 0 -> x <> 2 -> r.1 = Crash).
Proof.
  intros Hmax Hview.
  assert (Hg : exists ed,
            graph = {| edgeList := None;
                       adjList := Some {| offsets := cpy_column_view c_offsets;
                                          indices := cpy_column_view c_indices;
                                          adj_edge_data := ed;
                                          adj_ownership := 0 |};
                       transposedAdjList := None |}).
  { revert Hview. unfold Cugraph.gdf_adj_list_view. unfold_M. simpl.
    split_tests; try discriminate;
      destruct c_edge_data as [ed|]; simpl; split_tests; try discriminate;
      intros [= <-]; eexists; reflexivity. }
  destruct Hg as [ed ->].
  unfold Cugraph.gdf_degree.
  unfold bind, GDF_REQUIRE, get, return_, ret, deref, crash. simpl.
  split.
  - intros Hsz Hx. rewrite (bool_decide_eq_true_2 _ Hx). simpl.
    degree_pass.
    + destruct Hpass as (_ & _ & Hzero & _).
      specialize (Hzero ltac:(apply launch_dims_zero; [exact Hmax | lia])).
      discriminate Hzero.
    + destruct Hpass as (_ & _ & Hzero & _).
      specialize (Hzero ltac:(apply launch_dims_zero; [exact Hmax | lia])).
      injection Hzero as ->. reflexivity.
  - intros Hsz Hx. rewrite (bool_decide_eq_true_2 _ Hx).
    destruct (bool_decide (x <> 1)); simpl.
    + degree_pass; [| reflexivity]. clear Hpass.
      degree_pass; [| reflexivity].
      destruct Hpass as (_ & _ & Hzero & _).
      specialize (Hzero ltac:(apply launch_dims_zero; [exact Hmax | exact Hsz])).
      discriminate Hzero.
    + degree_pass; [| reflexivity].
      destruct Hpass as (_ & _ & Hzero & _).
      specialize (Hzero ltac:(apply launch_dims_zero; [exact Hmax | exact Hsz])).
      discriminate Hzero.
Qed.

(** X17: [gdf_degree] computes the in+out degree by running the out-degree
    pass and then the in-degree pass on the same degree column: whenever the
    call with [x = 2] returns, the call with [x = 0] (or any [x] other than 1
    and 2) is the call with [x = 1] on the column that the call with [x = 2]
    left. *)
Theorem gdf_degree_both_is_out_then_in
    (degree_offsets degree_coo : Z -> Z -> Z -> Z -> list Z -> list Z -> list Z)
    (CUDA_MAX_KERNEL_THREADS CUDA_MAX_BLOCKS : Z) (x : Z)
    (st st1 : Cugraph.degree_state) :
  x <> 1 -> x <> 2 ->
  Cugraph.gdf_degree degree_offsets degree_coo
    CUDA_MAX_KERNEL_THREADS CUDA_MAX_BLOCKS 2 st = (Return GDF_SUCCESS, st1) ->
  Cugraph.gdf_degree degree_offsets degree_coo
    CUDA_MAX_KERNEL_THREADS CUDA_MAX_BLOCKS x st
  = Cugraph.gdf_degree degree_offsets degree_coo
      CUDA_MAX_KERNEL_THREADS CUDA_MAX_BLOCKS 1 st1.
Proof.
  intros Hx1 Hx2.
  unfold Cugraph.gdf_degree.
  unfold bind, GDF_REQUIRE, get, return_, ret, deref, crash.
  rewrite (bool_decide_eq_true_2 _ Hx1), (bool_decide_eq_true_2 _ Hx2).
  rewrite (bool_decide_eq_true_2 (2 <> 1)) by lia.
  rewrite (bool_decide_eq_false_2 (2 <> 2)) by lia.
  rewrite (bool_decide_eq_false_2 (1 <> 1)) by lia.
  rewrite (bool_decide_eq_true_2 (1 <> 2)) by lia.
  destruct st as [[el [adj|] t] d]; simpl.
  - degree_pass; [| discriminate].
    destruct Hpass as (Hg & _). intros [= <-].
    destruct s' as [g' d']. simpl in Hg. subst g'. simpl. reflexivity.
  - destruct t as [t|]; simpl; [| discriminate].
    degree_pass; [| discriminate].
    destruct Hpass as (Hg & _). intros [= <-].
    destruct s' as [g' d']. simpl in Hg. subst g'. simpl. reflexivity.
Qed.

#[local] Transparent Cugraph.gdf_degree_impl.

Lemma gdf_degree_never_reports_a_failure_witness :
  Cugraph.gdf_degree (fun _ _ _ _ _ degree => degree) (fun _ _ _ _ _ degree => degree)
    256 65535 0
    {| Cugraph.dg_graph := wide_path_csr;
       Cugraph.dg_degree := int_column [7; 7; 7] GDF_INT32 |}
  = (Return GDF_SUCCESS,
     {| Cugraph.dg_graph := wide_path_csr;
        Cugraph.dg_degree := int_column [7; 7; 7] GDF_INT32 |}).
Proof.
  apply (proj2 (proj2 (gdf_degree_never_reports_a_failure
                         (fun _ _ _ _ _ degree => degree)
                         (fun _ _ _ _ _ degree => degree) 256 65535 0
                         {| Cugraph.dg_graph := wide_path_csr;
                            Cugraph.dg_degree := int_column [7; 7; 7] GDF_INT32 |}))
           _ eq_refl).
  - discriminate.
  - discriminate.
  - lia.
  - simpl. lia.
  - simpl. lia.
Defined.

Lemma gdf_degree_divides_by_zero_witness :
  (Cugraph.gdf_adj_list_view (int_column [0] GDF_INT32) (int_column [] GDF_INT32)
     None empty_graph).1 = Return GDF_SUCCESS /\
  (Cugraph.gdf_degree (fun _ _ _ _ _ degree => degree) (fun _ _ _ _ _ degree => degree)
     256 65535 0
     {| Cugraph.dg_graph :=
          (Cugraph.gdf_adj_list_view (int_column [0] GDF_INT32)
             (int_column [] GDF_INT32) None empty_graph).2;
        Cugraph.dg_degree := int_column [] GDF_INT32 |}).1 = Crash.
Proof.
  split; [reflexivity|].
  apply (proj2 (gdf_degree_divides_by_zero
                  (fun _ _ _ _ _ degree => degree) (fun _ _ _ _ _ degree => degree)
                  256 65535 0 (int_column [0] GDF_INT32) (int_column [] GDF_INT32)
                  None _ (int_column [] GDF_INT32) ltac:(lia) eq_refl)).
  - reflexivity.
  - lia.
Defined.

Lemma gdf_degree_both_is_out_then_in_witness :
  Cugraph.gdf_degree (fun _ _ _ _ col degree => col ++ degree)
    (fun _ _ _ _ col degree => degree ++ col) 256 65535 0
    {| Cugraph.dg_graph := path_csr; Cugraph.dg_degree := int_column [] GDF_INT32 |}
  = Cugraph.gdf_degree (fun _ _ _ _ col degree => col ++ degree)
      (fun _ _ _ _ col degree => degree ++ col) 256 65535 1
      (Cugraph.gdf_degree (fun _ _ _ _ col degree => col ++ degree)
         (fun _ _ _ _ col degree => degree ++ col) 256 65535 2
         {| Cugraph.dg_graph := path_csr;
            Cugraph.dg_degree := int_column [] GDF_INT32 |}).2.
Proof.
  apply (gdf_degree_both_is_out_then_in (fun _ _ _ _ col degree => col ++ degree)
           (fun _ _ _ _ col degree => degree ++ col) 256 65535 0).
  - lia.
  - lia.
  - reflexivity.
Defined.

(** ** Degree-bucket workers: every edge once *)

Lemma foldl_mbind {A B C : Type} (f : A -> C -> A) (g : B -> list C) (l : list B) (a : A) :
  foldl (fun s x => foldl f s (g x)) a l = foldl f a (l ≫= g).
Proof.
  revert a. induction l as [|x l IH]; intros a; [reflexivity|].
  rewrite bind_cons, foldl_app. simpl. apply IH.
Qed.

Lemma foldl_ext_in {A B : Type} (f g : A -> B -> A) (l : list B) (a : A) :
  (forall s x, x ∈ l -> f s x = g s x) -> foldl f a l = foldl g a l.
Proof.
  revert a. induction l as [|x l IH]; intros a H; [reflexivity|].
  simpl. rewrite H by apply list_elem_of_here.
  apply IH. intros s y Hy. apply H. apply list_elem_of_further. exact Hy.
Qed.

Lemma mbind_ext_perm {A B : Type} (f g : A -> list B) (l : list A) :
  (forall x, x ∈ l -> f x ≡ₚ g x) -> l ≫= f ≡ₚ l ≫= g.
Proof.
  induction l as [|x l IH]; intros H; [reflexivity|].
  rewrite !bind_cons. apply Permutation_app.
  - apply H. apply list_elem_of_here.
  - apply IH. intros y Hy. apply H. apply list_elem_of_further. exact Hy.
Qed.

Lemma mbind_app_perm {A B : Type} (f g : A -> list B) (l : list A) :
  l ≫= (fun x => f x ++ g x) ≡ₚ (l ≫= f) ++ (l ≫= g).
Proof.
  induction l as [|x l IH]; [reflexivity|].
  rewrite !bind_cons, IH.
  rewrite <- !app_assoc. apply Permutation_app_head.
  rewrite !app_assoc. apply Permutation_app_tail.
  apply Permutation_app_comm.
Qed.

(** Two nested loops may be exchanged, up to the order of what they yield. *)
Lemma mbind_swap {A B C : Type} (f : A -> B -> list C) (l1 : list A) (l2 : list B) :
  l1 ≫= (fun a => l2 ≫= f a) ≡ₚ l2 ≫= (fun b => l1 ≫= (fun a => f a b)).
Proof.
  induction l1 as [|a l1 IH].
  - simpl. induction l2 as [|b l2 IH2]; [reflexivity|].
    rewrite bind_cons. simpl. exact IH2.
  - rewrite bind_cons, IH.
    rewrite <- mbind_app_perm. apply mbind_ext_perm. intros b _.
    rewrite bind_cons. reflexivity.
Qed.

Lemma fmap_mbind {A B C : Type} (f : B -> C) (g : A -> list B) (l : list A) :
  f <$> (l ≫= g) = l ≫= (fun x => f <$> g x).
Proof.
  induction l as [|x l IH]; [reflexivity|].
  rewrite !bind_cons, fmap_app, IH. reflexivity.
Qed.

(** The loop [for (e = start; e < stop; e += stride)] visits the values
    [start + i * stride] below [stop]. *)
Lemma elem_of_strided (start stop stride x : Z) :
  0 < stride ->
  x ∈ Opg.strided start stop stride <->
  exists i, 0 <= i /\ x = start + i * stride /\ x < stop.
Proof.
  intros Hs. unfold Opg.strided. rewrite bool_decide_eq_true_2 by exact Hs.
  rewrite list_elem_of_fmap.
  set (N := stop - start + stride - 1).
  pose proof (Z.div_mod N stride ltac:(lia)) as Hdm.
  pose proof (Z.mod_pos_bound N stride Hs) as Hmod.
  split.
  - intros (i & -> & Hi). apply elem_of_seqZ in Hi.
    exists i. split; [lia|]. split; [reflexivity|]. subst N. nia.
  - intros (i & Hi & -> & Hlt). exists i. split; [reflexivity|].
    apply elem_of_seqZ. subst N. nia.
Qed.

Lemma NoDup_strided (start stop stride : Z) : NoDup (Opg.strided start stop stride).
Proof.
  unfold Opg.strided. case_bool_decide; [|constructor].
  apply NoDup_fmap_2_strong; [|apply NoDup_seqZ].
  intros i j _ _ Hij. nia.
Qed.

(** Threads numbered [0 .. stride), each striding from its own start, share
    out the range from [start] up to [stop]: every position is visited by
    exactly one thread, once. *)
Lemma strided_partition (tids : list Z) (start stop stride : Z) :
  0 < stride -> tids ≡ₚ seqZ 0 stride ->
  tids ≫= (fun t => Opg.strided (t + start) stop stride) ≡ₚ seqZ start (stop - start).
Proof.
  intros Hs ->.
  apply NoDup_Permutation.
  - apply NoDup_bind; [| intros; apply NoDup_strided | apply NoDup_seqZ].
    intros t1 t2 y Ht1 Ht2 Hy1 Hy2.
    apply elem_of_seqZ in Ht1, Ht2.
    apply elem_of_strided in Hy1 as (i1 & Hi1 & -> & _); [|exact Hs].
    apply elem_of_strided in Hy2 as (i2 & Hi2 & Heq & _); [|exact Hs].
    assert (i1 = i2) by nia. subst. lia.
  - apply NoDup_seqZ.
  - intros x. rewrite list_elem_of_bind, elem_of_seqZ. split.
    + intros (t & Hx & Ht). apply elem_of_seqZ in Ht.
      apply elem_of_strided in Hx as (i & Hi & -> & Hlt); [|exact Hs]. nia.
    + intros Hx. exists ((x - start) mod stride).
      pose proof (Z.div_mod (x - start) stride ltac:(lia)) as Hdm.
      pose proof (Z.mod_pos_bound (x - start) stride Hs) as Hmod.
      split; [|apply elem_of_seqZ; lia].
      apply elem_of_strided; [exact Hs|].
      exists ((x - start) / stride). split; [|split; [|lia]].
      * apply Z.div_pos; lia.
      * lia.
Qed.

(** The global thread ids [threadIdx.x + blockIdx.x * blockDim.x] of a grid,
    taken block by block, are the numbers below [blockDim.x * gridDim.x]. *)
Lemma thread_ids (grid block : Z) :
  0 < block ->
  seqZ 0 grid ≫= (fun b => (fun t => t + b * block) <$> seqZ 0 block)
  ≡ₚ seqZ 0 (block * grid).
Proof.
  intros Hb. apply NoDup_Permutation.
  - apply NoDup_bind; [| | apply NoDup_seqZ].
    + intros b1 b2 y Hb1 Hb2 Hy1 Hy2.
      apply list_elem_of_fmap in Hy1 as (t1 & -> & Ht1).
      apply list_elem_of_fmap in Hy2 as (t2 & Heq & Ht2).
      apply elem_of_seqZ in Ht1, Ht2. nia.
    + intros b _. apply NoDup_fmap_2_strong; [|apply NoDup_seqZ].
      intros; lia.
  - apply NoDup_seqZ.
  - intros x. rewrite list_elem_of_bind, elem_of_seqZ. split.
    + intros (b & Hx & Hbg). apply elem_of_seqZ in Hbg.
      apply list_elem_of_fmap in Hx as (t & -> & Ht).
      apply elem_of_seqZ in Ht. nia.
    + intros Hx.
      pose proof (Z.div_mod x block ltac:(lia)) as Hdm.
      pose proof (Z.mod_pos_bound x block Hb) as Hmod.
      assert (0 <= x / block) by (apply Z.div_pos; lia).
      exists (x / block). split.
      * apply list_elem_of_fmap. exists (x mod block).
        split; [lia|]. apply elem_of_seqZ. lia.
      * apply elem_of_seqZ. nia.
Qed.

Section WorkerFacts.
Context {S : Type}.
Variable op : Z -> Z -> S -> S.
Variable graph : Opg.GraphCSRView.
Variable vertex_ids : list Z.

Lemma thread_edges_partition (tids : list Z) (i stride : Z) :
  0 < stride -> tids ≡ₚ seqZ 0 stride ->
  tids ≫= (fun t => thread_edges graph vertex_ids i t stride)
  ≡ₚ vertex_edges graph vertex_ids i.
Proof.
  intros Hs Ht. unfold thread_edges, vertex_edges. cbv zeta.
  rewrite <- fmap_mbind. apply fmap_Permutation.
  apply strided_partition; assumption.
Qed.


Lemma per_vertex_thread_edges (n tid stride : Z) (s : S) :
  Opg.per_vertex_thread op graph vertex_ids n tid stride s
  = apply_ops op s (seqZ 0 n ≫= (fun i => thread_edges graph vertex_ids i tid stride)).
Proof.
  unfold Opg.per_vertex_thread, apply_ops. rewrite <- foldl_mbind.
  apply foldl_ext_in. intros s' i _. unfold thread_edges. cbv zeta.
  rewrite foldl_fmap. reflexivity.
Qed.


(** A launch of the kernel-per-vertex kernel: the threads of the whole grid
    share out the edges of every bucket vertex. *)
Lemma kernel_per_vertex_launch (n grid block : Z) (d : Opg.device) :
  0 < block -> 0 < grid ->
  exists order,
    order ≡ₚ seqZ 0 n ≫= vertex_edges graph vertex_ids /\
    Opg.launch_kernel Opg.kernel_per_vertex_worker_weightless grid block
      (fun blockIdx threadIdx =>
         Opg.per_vertex_thread op graph vertex_ids n
           (threadIdx + blockIdx * block) (block * grid)) d
    = {| Opg.mem := apply_ops op (Opg.mem d) order;
         Opg.launches :=
           Opg.launches d ++
           [ {| Opg.l_kernel := Opg.kernel_per_vertex_worker_weightless;
                Opg.l_grid := grid; Opg.l_block := block |} ] |}.
Proof.
  intros Hb Hg.
  set (tids := seqZ 0 grid ≫= (fun b => (fun t => t + b * block) <$> seqZ 0 block)).
  exists (tids ≫= (fun tid =>
            seqZ 0 n ≫= (fun i => thread_edges graph vertex_ids i tid (block * grid)))).
  split.
  - rewrite mbind_swap. apply mbind_ext_perm. intros i _.
    apply thread_edges_partition; [nia | apply thread_ids; exact Hb].
  - unfold Opg.launch_kernel. f_equal.
    unfold apply_ops, tids.
    rewrite <- foldl_mbind, <- foldl_mbind.
    apply foldl_ext_in. intros s b _.
    rewrite foldl_fmap.
    apply foldl_ext_in. intros s' t _.
    apply per_vertex_thread_edges.
Qed.
End WorkerFacts.



(** X19: [large_vertex_worker] applies the operator to every edge of every
    vertex of the bucket exactly once and to nothing else: the 32768 threads
    of its one launch (1024 blocks of 32 threads), each striding over the
    edge range of every bucket vertex, together leave the operator memory of
    applying the operator along some ordering of the bucket's edges. *)
Theorem large_worker_visits_every_edge_once {S : Type} (op : Z -> Z -> S -> S)
    (graph : Opg.GraphCSRView) (bucket : Opg.DegreeBucket) (d : Opg.device) :
  0 <= Opg.numberOfVertices bucket ->
  exists order,
    order ≡ₚ bucket_edges graph bucket /\
    Opg.large_vertex_worker op graph bucket d
    = {| Opg.mem := apply_ops op (Opg.mem d) order;
         Opg.launches :=
           Opg.launches d ++
           if bool_decide (Opg.numberOfVertices bucket <> 0) then
             [ {| Opg.l_kernel := Opg.kernel_per_vertex_worker_weightless;
                  Opg.l_grid := 1024; Opg.l_block := 32 |} ]
           else [] |}.
Proof.
  intros _. unfold Opg.large_vertex_worker, bucket_edges. cbv zeta.
  destruct (bool_decide (Opg.numberOfVertices bucket <> 0)) eqn:Hn.
  - apply (kernel_per_vertex_launch op graph (Opg.vertexIds bucket)); lia.
  - apply bool_decide_eq_false_1 in Hn.
    assert (H0 : Opg.numberOfVertices bucket = 0) by lia.
    exists []. rewrite H0. split; [reflexivity|].
    destruct d. simpl. rewrite app_nil_r. reflexivity.
Qed.

Lemma large_worker_visits_every_edge_once_witness :
  exists order,
    order ≡ₚ bucket_edges triangle_view two_vertex_bucket /\
    Opg.mem (Opg.large_vertex_worker record_edge triangle_view two_vertex_bucket
               idle_device) = apply_ops record_edge [] order.
Proof.
  destruct (large_worker_visits_every_edge_once record_edge triangle_view
              two_vertex_bucket idle_device ltac:(simpl; lia))
    as (order & Hperm & Hrun).
  exists order. split; [exact Hperm|]. rewrite Hrun. reflexivity.
Defined.

(** ** k-truss: a caller of [gdf_add_adj_list] *)

(** X21: [gdf_k_truss_max] reports no failure of [ktruss_max_impl].  On a
    graph with a 32-bit edge list, no adjacency list and edge data that is
    neither float nor double (which [gdf_edge_list_view] accepts),
    [gdf_add_adj_list] fails inside [ktruss_max_impl] with
    GDF_UNSUPPORTED_DTYPE; [gdf_k_truss_max] nevertheless returns
    GDF_SUCCESS, with the graph and [*k_max] exactly as they were.  On a graph
    without an edge list, also one given in compressed form, the call reads
    through the null edge list and does not return. *)
Theorem gdf_k_truss_max_hides_failure
    (KTruss_getMaxK : list Z -> list Z -> Z -> Z -> Z)
    (failed_expectation : M Ktruss.ktruss_state unit)
    (st : Ktruss.ktruss_state) :
  (forall el ed,
     edgeList (Ktruss.kt_graph st) = Some el ->
     adjList (Ktruss.kt_graph st) = None ->
     dtype (src_indices el) = GDF_INT32 -> dtype (dest_indices el) = GDF_INT32 ->
     is_nullptr (data (src_indices el)) = false ->
     edge_data el = Some ed ->
     dtype ed <> GDF_FLOAT32 -> dtype ed <> GDF_FLOAT64 ->
     Ktruss.gdf_k_truss_max KTruss_getMaxK failed_expectation st
       = (Return GDF_SUCCESS, st)) /\
  (edgeList (Ktruss.kt_graph st) = None ->
   Ktruss.gdf_k_truss_max KTruss_getMaxK failed_expectation st = (Crash, st)).
Proof.
  destruct st as [[e a t] nv k]. simpl. split.
  - intros el ed -> -> Hs Hd Hnull Hed Hf32 Hf64.
    destruct el as [[sd sv ssz sty sn] [dd dv dsz dty dn] w ow].
    simpl in Hs, Hd, Hnull, Hed. subst sty dty w.
    destruct ed as [wd wv wsz wt wn]. simpl in Hf32, Hf64.
    unfold Ktruss.gdf_k_truss_max, Ktruss.ktruss_max_impl, Ktruss.CUGRAPH_EXPECTS,
      Ktruss.on_ktruss_graph. unfold_M. simpl. rewrite Hnull. simpl.
    destruct wt; try contradiction; reflexivity.
  - intros ->. reflexivity.
Qed.


Lemma gdf_k_truss_max_hides_failure_witness :
  (Cugraph.gdf_edge_list_view (int_column [0; 1] GDF_INT32) (int_column [1; 2] GDF_INT32)
     (Some (int_column [5; 5] GDF_INT32)) empty_graph).1 = Return GDF_SUCCESS /\
  Ktruss.gdf_k_truss_max (fun _ _ nnz _ => nnz) (return_ GDF_INVALID_API_CALL)
    {| Ktruss.kt_graph :=
         (Cugraph.gdf_edge_list_view (int_column [0; 1] GDF_INT32)
            (int_column [1; 2] GDF_INT32) (Some (int_column [5; 5] GDF_INT32))
            empty_graph).2;
       Ktruss.kt_numberOfVertices := 3; Ktruss.k_max := -1 |}
  = (Return GDF_SUCCESS,
     {| Ktruss.kt_graph :=
          (Cugraph.gdf_edge_list_view (int_column [0; 1] GDF_INT32)
             (int_column [1; 2] GDF_INT32) (Some (int_column [5; 5] GDF_INT32))
             empty_graph).2;
        Ktruss.kt_numberOfVertices := 3; Ktruss.k_max := -1 |}).
Proof.
  split; [reflexivity|].
  apply (proj1 (gdf_k_truss_max_hides_failure (fun _ _ nnz _ => nnz)
                  (return_ GDF_INVALID_API_CALL)
                  {| Ktruss.kt_graph :=
                       (Cugraph.gdf_edge_list_view (int_column [0; 1] GDF_INT32)
                          (int_column [1; 2] GDF_INT32)
                          (Some (int_column [5; 5] GDF_INT32)) empty_graph).2;
                     Ktruss.kt_numberOfVertices := 3; Ktruss.k_max := -1 |})
           _ (cpy_column_view (int_column [5; 5] GDF_INT32))
           eq_refl eq_refl eq_refl eq_refl eq_refl eq_refl).
  - discriminate.
  - discriminate.
Defined.

